(** * SkyMind decision pipeline: a shallow embedding and its properties

  The development follows the layout of the Python sources:
  - [Py]            the few built-ins the code relies on (str.join, sorted,
                    int(), round(), truthiness, list(set(...)));
  - [PyDatetime]    naive [datetime] values, their ordinal arithmetic and
                    the two [strftime] formats in use;
  - the canonical schema of app/core/schema.py, one module per class;
  - app/core/normalize.py, app/core/dedupe.py, app/core/scoring.py,
    app/core/price_prediction.py, app/core/cache.py and
    app/services/orchestrator.py.

  A finite Python [float] is modelled by the rational [Q] it denotes.
  Comparisons and truncation are exact on such values. Float arithmetic is
  the exact operation followed by [Py.fl], rounding to the nearest binary64
  value, ties to even; where the code computes with a float field, the
  field is read through [Py.fl], which takes a decimal to the double that
  a literal or a parsed number of that value is, and leaves the value of a
  double as it is. Infinities and NaN are outside the model, and the
  statements on scores bound the magnitude of their inputs so that no
  operation overflows. Objects that the code mutates in place and shares
  between lists (itineraries in the deduplicator and the ranker) live in an
  explicit store indexed by references. *)

From Stdlib Require Import ZArith QArith Qround Qpower Lqa Lia.
From Stdlib Require Import Strings.String Strings.Ascii Numbers.DecimalString.
From stdpp Require Import base list sorting.

Local Open Scope Z_scope.

(** ** Python built-ins *)

Module Py.

(** [sep.join(parts)] *)
Fixpoint join (sep : string) (parts : list string) : string :=
  match parts with
  | [] => EmptyString
  | [p] => p
  | p :: rest => (p ++ sep ++ join sep rest)%string
  end.

(** [str(n)] for an [int] *)
Definition str_int (n : Z) : string := NilZero.string_of_int (Z.to_int n).

(** zero padding on the left up to [width] characters, as the numeric
    [strftime] fields do *)
Fixpoint zeros (n : nat) : string :=
  match n with
  | O => EmptyString
  | S n' => String "0"%char (zeros n')
  end.

Definition zfill (width : nat) (s : string) : string :=
  (zeros (width - String.length s) ++ s)%string.

(** [int(x)] for a float: truncation toward zero *)
Definition int_of_float (x : Q) : Z := Z.quot (Qnum x) (Zpos (Qden x)).

(** Strict and weak comparison of floats as booleans *)
Definition Qltb (x y : Q) : bool := negb (Qle_bool y x).
Definition Qleb (x y : Q) : bool := Qle_bool x y.
Definition Qeqb (x y : Q) : bool := Qeq_bool x y.

(** Truthiness of an [Optional[float]]: [None] and [0.0] are falsy *)
Definition truthy_float (o : option Q) : bool :=
  match o with
  | Some x => negb (Qeqb x 0)
  | None => false
  end.

(** Truthiness of an [Optional[int]]: [None] and [0] are falsy *)
Definition truthy_int (o : option Z) : bool :=
  match o with
  | Some n => negb (n =? 0)
  | None => false
  end.

(** [x in xs] on a list of strings *)
Definition contains (x : string) (xs : list string) : bool :=
  existsb (String.eqb x) xs.

(** [s.lower()], on the ASCII letters; other bytes are left as they are *)
Definition lower_char (c : ascii) : ascii :=
  let n := nat_of_ascii c in
  if ((65 <=? n) && (n <=? 90))%nat then ascii_of_nat (n + 32) else c.

Fixpoint lower (s : string) : string :=
  match s with
  | EmptyString => EmptyString
  | String c s' => String (lower_char c) (lower s')
  end.

(** [round(x)] to the nearest integer, ties to the even neighbour *)
Definition round_half_even (x : Q) : Z :=
  let f := Qfloor x in
  let twice_frac := Qminus (Qmult 2 x) (inject_Z (2 * f)) in
  match Qcompare twice_frac 1 with
  | Lt => f
  | Gt => f + 1
  | Eq => if Z.even f then f else f + 1
  end.

(** *** Binary64 arithmetic *)

(** [2 ** e] *)
Definition pow2 (e : Z) : Q := Qpower 2 e.

(** the integer part of the binary logarithm of a positive number: the
    bit lengths of numerator and denominator give it up to one *)
Definition ilog2 (q : Q) : Z :=
  let k := Z.log2 (Qnum q) - Z.log2 (Zpos (Qden q)) in
  if Qltb q (pow2 k) then k - 1 else k.

(** the exponent of the unit in the last place of the double nearest to a
    positive number: significands have 53 bits, and the least subnormal is
    2 ** -1074 *)
Definition ulp_exp (q : Q) : Z := Z.max (ilog2 q - 52) (-1074).

Definition fl_pos (q : Q) : Q :=
  let e := ulp_exp q in
  (inject_Z (round_half_even (q / pow2 e)) * pow2 e)%Q.

(** the double nearest to [q], ties to the even significand, in lowest
    terms *)
Definition fl (q : Q) : Q :=
  Qred match Qcompare q 0 with
       | Gt => fl_pos q
       | Lt => - fl_pos (- q)
       | Eq => 0
       end.

(** [x + y], [x - y] and [x * y] on floats *)
Definition fadd (x y : Q) : Q := fl (x + y).
Definition fsub (x y : Q) : Q := fl (x - y).
Definition fmul (x y : Q) : Q := fl (x * y).

(** [x / y] on floats; [None] is the ZeroDivisionError *)
Definition fdiv (x y : Q) : option Q :=
  if Qeqb y 0 then None else Some (fl (x / y)).

(** [a / b] on ints: the quotient is rounded once *)
Definition int_truediv (a b : Z) : option Q :=
  if b =? 0 then None else Some (fl (inject_Z a / inject_Z b)).

(** [round(x, 2)]: the decimal with two places nearest to the value of
    [x], ties to the even digit, converted back to a double *)
Definition round2 (x : Q) : Q := fl (Qmake (round_half_even (Qmult x 100)) 100).

(** [sorted(l)] with the order given by [le x y := not (y < x)]: Python's
    sort is stable, and so is insertion from the right into the sorted
    tail, where an element goes in front of the elements it ties with. *)
Section Sorted.
Context {A : Type} (le : A -> A -> bool).

Fixpoint insert_sorted (x : A) (l : list A) : list A :=
  match l with
  | [] => [x]
  | y :: l' => if le x y then x :: y :: l' else y :: insert_sorted x l'
  end.

Definition sorted (l : list A) : list A := foldr insert_sorted [] l.
End Sorted.

(** [sorted(l)] on strings: code-point order, which on the UTF-8 bytes of
    a [string] is the byte-wise lexicographic order *)
Definition sorted_str (l : list string) : list string := sorted String.leb l.

(** [list(set(l))]: the distinct elements of [l]. Python leaves the
    iteration order of a set unspecified; the model keeps every element at
    its last occurrence, and the statements about the result only speak
    of membership and of the absence of duplicates. *)
Definition list_of_set {A : Type} `{EqDecision A} (l : list A) : list A :=
  remove_dups l.

End Py.

(** ** Naive [datetime] values

    The schema declares plain [datetime] fields and documents them with
    naive values such as 2024-06-15T08:00:00. A value is its calendar and
    clock fields; [hour] is the hour the code reads, and the difference of
    two values is the difference of their positions on the proleptic
    Gregorian time line, as [datetime.__sub__] computes it from the
    ordinals of the days. *)

Module PyDatetime.

Record datetime : Type := mk_datetime {
  year : Z;
  month : Z;
  day : Z;
  hour : Z;
  minute : Z;
  second : Z;
  microsecond : Z
}.

Definition _is_leap (y : Z) : bool :=
  (y mod 4 =? 0) && (negb (y mod 100 =? 0) || (y mod 400 =? 0)).

Definition _days_before_year (y : Z) : Z :=
  let y' := y - 1 in
  y' * 365 + y' / 4 - y' / 100 + y' / 400.

(** number of days in the year before the first day of month [m] *)
Definition _DAYS_BEFORE_MONTH (m : Z) : Z :=
  match m with
  | 1 => 0 | 2 => 31 | 3 => 59 | 4 => 90 | 5 => 120 | 6 => 151
  | 7 => 181 | 8 => 212 | 9 => 243 | 10 => 273 | 11 => 304 | _ => 334
  end.

Definition _days_before_month (y m : Z) : Z :=
  _DAYS_BEFORE_MONTH m + (if (2 <? m) && _is_leap y then 1 else 0).

Definition _ymd2ord (y m d : Z) : Z :=
  _days_before_year y + _days_before_month y m + d.

Definition toordinal (t : datetime) : Z := _ymd2ord (year t) (month t) (day t).

(** [t.weekday()]: Monday is 0, Sunday is 6 *)
Definition weekday (t : datetime) : Z := (toordinal t + 6) mod 7.

(** position of [t] on the time line, in microseconds *)
Definition to_microseconds (t : datetime) : Z :=
  (((toordinal t * 24 + hour t) * 60 + minute t) * 60 + second t) * 1000000
  + microsecond t.

(** a [timedelta], as its number of microseconds *)
Definition timedelta : Type := Z.

(** [a - b] *)
Definition sub (a b : datetime) : timedelta := to_microseconds a - to_microseconds b.

(** [td.days]: a timedelta is normalised with 0 <= seconds < 86400, so
    the day count is the floor *)
Definition days (td : timedelta) : Z := td / (86400 * 1000000).

(** [td.total_seconds()] *)
Definition total_seconds (td : timedelta) : Q := Qmake td 1000000.

(** [t.strftime("%Y-%m-%d")]: the C library writes the year in full and
    without padding, month and day with two digits *)
Definition strftime_Y_m_d (t : datetime) : string :=
  (Py.str_int (year t) ++ "-" ++ Py.zfill 2 (Py.str_int (month t))
    ++ "-" ++ Py.zfill 2 (Py.str_int (day t)))%string.

(** [t.strftime("%Y%m%d")] *)
Definition strftime_Ymd (t : datetime) : string :=
  (Py.str_int (year t) ++ Py.zfill 2 (Py.str_int (month t))
    ++ Py.zfill 2 (Py.str_int (day t)))%string.

End PyDatetime.

(** ** app/core/schema.py *)

Module CabinClass.
Inductive t : Type := ECONOMY | PREMIUM_ECONOMY | BUSINESS | FIRST.

Definition value (c : t) : string :=
  match c with
  | ECONOMY => "economy"
  | PREMIUM_ECONOMY => "premium_economy"
  | BUSINESS => "business"
  | FIRST => "first"
  end.
End CabinClass.

Module BaggageType.
Inductive t : Type := CARRY_ON | CHECKED | PERSONAL_ITEM.

Definition value (b : t) : string :=
  match b with
  | CARRY_ON => "carry_on"
  | CHECKED => "checked"
  | PERSONAL_ITEM => "personal_item"
  end.
End BaggageType.

Module RiskFlag.
Inductive t : Type :=
| SELF_TRANSFER
| TIGHT_CONNECTION
| OVERNIGHT_LAYOVER
| SEPARATE_TICKETS
| AIRPORT_CHANGE
| LONG_LAYOVER
| RED_EYE.

#[global] Instance eq_dec : EqDecision t.
Proof. solve_decision. Defined.
End RiskFlag.

Module Baggage.
Record t : Type := mk {
  type : BaggageType.t;
  quantity : Z;
  weight_kg : option Z;
  included : bool;
  price_usd : option Q;
  restrictions : list string
}.
End Baggage.

Module FareRules.
Record t : Type := mk {
  changeable : bool;
  change_fee_usd : option Q;
  refundable : bool;
  cancellation_fee_usd : option Q;
  notes : list string
}.
End FareRules.

Module Airport.
Record t : Type := mk {
  code : string;
  name : string;
  city : string;
  country : string;
  timezone : option string
}.
End Airport.

Module Leg.
Record t : Type := mk {
  leg_id : string;
  origin : Airport.t;
  destination : Airport.t;
  departure_time : PyDatetime.datetime;
  arrival_time : PyDatetime.datetime;
  duration_minutes : Z;
  airline : string;
  airline_code : string;
  flight_number : string;
  aircraft : option string;
  cabin_class : CabinClass.t;
  operating_airline : option string;
  on_time_percent : option Q
}.
End Leg.

Module Layover.
Record t : Type := mk {
  airport : Airport.t;
  duration_minutes : Z;
  overnight : bool;
  airport_change : bool;
  notes : list string
}.
End Layover.

Module PriceBreakdown.
Record t : Type := mk {
  base_fare_usd : Q;
  taxes_usd : Q;
  fees_usd : Q;
  total_usd : Q;
  currency : string;
  price_per_traveler : option Q;
  num_travelers : Z
}.
End PriceBreakdown.

Module ProviderMetadata.
Record t : Type := mk {
  provider_name : string;
  provider_id : string;
  deeplink : string;
  last_updated : PyDatetime.datetime;
  trust_score : Q;
  notes : list string
}.

Definition set_notes (p : t) (ns : list string) : t :=
  mk (provider_name p) (provider_id p) (deeplink p) (last_updated p)
     (trust_score p) ns.
End ProviderMetadata.

Module Signals.
Record t : Type := mk {
  on_time_proxy : option Q;
  airport_quality : option Q;
  seat_availability : option string;
  popularity : option Q
}.
End Signals.

(** The weight dictionaries all carry the same seven keys; they are kept as
  a record with one field per key. *)
Module Weights.
Record t : Type := mk {
  price : Q;
  duration : Q;
  stops : Q;
  layover : Q;
  baggage : Q;
  risk : Q;
  reliability : Q
}.
End Weights.

Module ScoreBreakdown.
Record t : Type := mk {
  price_score : Q;
  duration_score : Q;
  stops_score : Q;
  layover_score : Q;
  baggage_score : Q;
  risk_score : Q;
  reliability_score : Q;
  weights : Weights.t
}.

(** every sub-score field is declared with [ge=0.0, le=100.0] *)
Definition in_range (x : Q) : bool := Py.Qleb 0 x && Py.Qleb x 100.

(** The constructor call [ScoreBreakdown(...)]: the field constraints are
    validated, and a violation raises ([None]). *)
Definition create (p d s l b r rel : Q) (w : Weights.t) : option t :=
  if in_range p && in_range d && in_range s && in_range l && in_range b
     && in_range r && in_range rel
  then Some (mk p d s l b r rel w)
  else None.
End ScoreBreakdown.

Module Itinerary.
Record t : Type := mk {
  itinerary_id : string;
  legs : list Leg.t;
  layovers : list Layover.t;
  num_stops : Z;
  total_duration_minutes : Z;
  is_direct : bool;
  price : PriceBreakdown.t;
  baggage : list Baggage.t;
  fare_rules : FareRules.t;
  risk_flags : list RiskFlag.t;
  signals : Signals.t;
  provider : ProviderMetadata.t;
  score : option Q;
  score_breakdown : option ScoreBreakdown.t;
  explanation : option string
}.

Definition set_derived (i : t) (stops : Z) (direct : bool) (total : Z) : t :=
  mk (itinerary_id i) (legs i) (layovers i) stops total direct (price i)
     (baggage i) (fare_rules i) (risk_flags i) (signals i) (provider i)
     (score i) (score_breakdown i) (explanation i).

Definition set_risk_flags (i : t) (flags : list RiskFlag.t) : t :=
  mk (itinerary_id i) (legs i) (layovers i) (num_stops i)
     (total_duration_minutes i) (is_direct i) (price i) (baggage i)
     (fare_rules i) flags (signals i) (provider i) (score i)
     (score_breakdown i) (explanation i).

Definition set_provider (i : t) (p : ProviderMetadata.t) : t :=
  mk (itinerary_id i) (legs i) (layovers i) (num_stops i)
     (total_duration_minutes i) (is_direct i) (price i) (baggage i)
     (fare_rules i) (risk_flags i) (signals i) p (score i)
     (score_breakdown i) (explanation i).

Definition set_score (i : t) (sc : Q) (bd : ScoreBreakdown.t) : t :=
  mk (itinerary_id i) (legs i) (layovers i) (num_stops i)
     (total_duration_minutes i) (is_direct i) (price i) (baggage i)
     (fare_rules i) (risk_flags i) (signals i) (provider i) (Some sc)
     (Some bd) (explanation i).

Definition set_explanation (i : t) (e : string) : t :=
  mk (itinerary_id i) (legs i) (layovers i) (num_stops i)
     (total_duration_minutes i) (is_direct i) (price i) (baggage i)
     (fare_rules i) (risk_flags i) (signals i) (provider i) (score i)
     (score_breakdown i) (Some e).

Definition set_baggage (i : t) (bags : list Baggage.t) : t :=
  mk (itinerary_id i) (legs i) (layovers i)
    (num_stops i) (total_duration_minutes i)
    (is_direct i) (price i) bags (fare_rules i)
    (risk_flags i) (signals i) (provider i)
    (score i) (score_breakdown i) (explanation i).
End Itinerary.

Module SearchIntent.
Record t : Type := mk {
  origins : list string;
  destinations : list string;
  departure_date : PyDatetime.datetime;
  return_date : option PyDatetime.datetime;
  flexible_dates : bool;
  date_flexibility_days : Z;
  nearby_airports : bool;
  cabin_class : CabinClass.t;
  num_travelers : Z;
  max_stops : option Z;
  nonstop_only : bool;
  max_price_usd : option Q;
  max_duration_hours : option Q;
  no_red_eyes : bool;
  no_overnight_layovers : bool;
  priority : string
}.

Definition set_origins (i : t) (o : list string) : t :=
  mk o (destinations i) (departure_date i) (return_date i)
     (flexible_dates i) (date_flexibility_days i) (nearby_airports i)
     (cabin_class i) (num_travelers i) (max_stops i) (nonstop_only i)
     (max_price_usd i) (max_duration_hours i) (no_red_eyes i)
     (no_overnight_layovers i) (priority i).

Definition set_destinations (i : t) (d : list string) : t :=
  mk (origins i) d (departure_date i) (return_date i)
     (flexible_dates i) (date_flexibility_days i) (nearby_airports i)
     (cabin_class i) (num_travelers i) (max_stops i) (nonstop_only i)
     (max_price_usd i) (max_duration_hours i) (no_red_eyes i)
     (no_overnight_layovers i) (priority i).

Definition set_max_stops (i : t) (m : option Z) : t :=
  mk (origins i) (destinations i)
    (departure_date i) (return_date i)
    (flexible_dates i) (date_flexibility_days i)
    (nearby_airports i) (cabin_class i)
    (num_travelers i) m (nonstop_only i)
    (max_price_usd i) (max_duration_hours i)
    (no_red_eyes i) (no_overnight_layovers i)
    (priority i).

Definition set_max_price_usd (i : t) (p : option Q) : t :=
  mk (origins i) (destinations i)
    (departure_date i) (return_date i)
    (flexible_dates i) (date_flexibility_days i)
    (nearby_airports i) (cabin_class i)
    (num_travelers i) (max_stops i)
    (nonstop_only i) p (max_duration_hours i)
    (no_red_eyes i) (no_overnight_layovers i)
    (priority i).

Definition set_max_duration_hours (i : t) (h : option Q) : t :=
  mk (origins i) (destinations i)
    (departure_date i) (return_date i)
    (flexible_dates i) (date_flexibility_days i)
    (nearby_airports i) (cabin_class i)
    (num_travelers i) (max_stops i)
    (nonstop_only i) (max_price_usd i) h
    (no_red_eyes i) (no_overnight_layovers i)
    (priority i).
End SearchIntent.

(** ** The object store

    Itineraries are mutable objects that the deduplicator and the ranker
    receive in lists and update in place; a list of itineraries is a list
    of references into a store, and two occurrences of one reference are
    one object. *)

Module Heap.
Definition ref : Type := nat.
Definition store : Type := ref -> Itinerary.t.

Definition upd (s : store) (r : ref) (v : Itinerary.t) : store :=
  fun r' => if Nat.eqb r' r then v else s r'.
End Heap.

(** ** app/core/normalize.py *)

Module Normalizer.

(** one turn of [for layover in itinerary.layovers] *)
Definition layover_risks (risks : list RiskFlag.t) (layover : Layover.t)
  : list RiskFlag.t :=
  let d := Layover.duration_minutes layover in
  let risks :=
    if d <? 90 then risks ++ [RiskFlag.TIGHT_CONNECTION]
    else if (360 <=? d) && (d <? 720) then risks ++ [RiskFlag.LONG_LAYOVER]
    else risks in
  let risks :=
    if Layover.overnight layover || (720 <=? d)
    then risks ++ [RiskFlag.OVERNIGHT_LAYOVER] else risks in
  let risks :=
    if Layover.airport_change layover
    then risks ++ [RiskFlag.AIRPORT_CHANGE] else risks in
  risks.

(** [for leg in itinerary.legs: ... append; break] *)
Fixpoint red_eye_scan (legs : list Leg.t) (risks : list RiskFlag.t)
  : list RiskFlag.t :=
  match legs with
  | [] => risks
  | leg :: rest =>
      let hour := PyDatetime.hour (Leg.departure_time leg) in
      if (22 <=? hour) || (hour <? 5) then risks ++ [RiskFlag.RED_EYE]
      else red_eye_scan rest risks
  end.

Definition _detect_risks (itinerary : Itinerary.t) : list RiskFlag.t :=
  let risks := foldl layover_risks [] (Itinerary.layovers itinerary) in
  let risks := red_eye_scan (Itinerary.legs itinerary) risks in
  Py.list_of_set risks.

Definition normalize (itinerary : Itinerary.t) : Itinerary.t :=
  let num_stops := Z.of_nat (length (Itinerary.legs itinerary)) - 1 in
  let is_direct := num_stops =? 0 in
  let total_minutes :=
    match Itinerary.legs itinerary with
    | [] => Itinerary.total_duration_minutes itinerary
    | first :: _ =>
        let first_departure := Leg.departure_time first in
        let last_arrival :=
          Leg.arrival_time (List.last (Itinerary.legs itinerary) first) in
        Py.int_of_float
          (Qdiv (PyDatetime.total_seconds
                   (PyDatetime.sub last_arrival first_departure)) 60)
    end in
  let itinerary := Itinerary.set_derived itinerary num_stops is_direct total_minutes in
  Itinerary.set_risk_flags itinerary (_detect_risks itinerary).

End Normalizer.

(** ** app/core/dedupe.py *)

Module Dedupe.
Import Heap.

Definition leg_signature (leg : Leg.t) : string :=
  (Leg.airline_code leg ++ Leg.flight_number leg ++ "_"
     ++ PyDatetime.strftime_Ymd (Leg.departure_time leg) ++ "_"
     ++ Airport.code (Leg.origin leg) ++ "_"
     ++ Airport.code (Leg.destination leg))%string.

Definition _compute_signature (itin : Itinerary.t) : string :=
  Py.join "|" (map leg_signature (Itinerary.legs itin)).

(** [groups[sig].append(itin)] on a [defaultdict(list)]; the dictionary
    keeps its keys in insertion order *)
Fixpoint groups_append (groups : list (string * list ref)) (sig : string) (r : ref)
  : list (string * list ref) :=
  match groups with
  | [] => [(sig, [r])]
  | (k, itins) :: rest =>
      if String.eqb k sig then (k, itins ++ [r]) :: rest
      else (k, itins) :: groups_append rest sig r
  end.

Definition _group_by_signature (s : store) (itineraries : list ref)
  : list (string * list ref) :=
  foldl (fun groups r => groups_append groups (_compute_signature (s r)) r)
        [] itineraries.

(** the sort key [(x.price.total_usd, -x.provider.trust_score)] *)
Definition sort_key (x : Itinerary.t) : Q * Q :=
  (PriceBreakdown.total_usd (Itinerary.price x),
   Qopp (ProviderMetadata.trust_score (Itinerary.provider x))).

(** [a < b] on pairs: the first components decide unless they are equal *)
Definition key_lt (a b : Q * Q) : bool :=
  if Py.Qeqb (fst a) (fst b) then Py.Qltb (snd a) (snd b)
  else Py.Qltb (fst a) (fst b).

Definition key_le (a b : Q * Q) : bool := negb (key_lt b a).

Definition add_note (x : Itinerary.t) (note : string) : Itinerary.t :=
  Itinerary.set_provider x
    (ProviderMetadata.set_notes (Itinerary.provider x)
       (ProviderMetadata.notes (Itinerary.provider x) ++ [note])).

(** the names of the duplicates whose id differs from the winner's *)
Definition other_providers (s : store) (duplicates : list ref) (best : ref)
  : list string :=
  map (fun d => ProviderMetadata.provider_name (Itinerary.provider (s d)))
      (List.filter
         (fun d => negb (String.eqb (Itinerary.itinerary_id (s d))
                                    (Itinerary.itinerary_id (s best))))
         duplicates).

Definition also_available_note (others : list string) : string :=
  ("Also available via: " ++ Py.join ", " others)%string.

(** [None] stands for the IndexError of [sorted_itins[0]] on an empty list *)
Definition _select_best (s : store) (duplicates : list ref) : option (store * ref) :=
  let sorted_itins :=
    Py.sorted (fun x y => key_le (sort_key (s x)) (sort_key (s y))) duplicates in
  match sorted_itins with
  | [] => None
  | best :: _ =>
      if (1 <? length duplicates)%nat then
        match other_providers s duplicates best with
        | [] => Some (s, best)
        | others =>
            let note := also_available_note others in
            if existsb (String.eqb note)
                 (ProviderMetadata.notes (Itinerary.provider (s best)))
            then Some (s, best)
            else Some (upd s best (add_note (s best) note), best)
        end
      else Some (s, best)
  end.

(** one turn of [for signature, itins in groups.items()] *)
Definition dedupe_step (acc : option (store * list ref)) (group : string * list ref)
  : option (store * list ref) :=
  match acc with
  | None => None
  | Some (s, deduplicated) =>
      match snd group with
      | [only] => Some (s, deduplicated ++ [only])
      | itins =>
          match _select_best s itins with
          | None => None
          | Some (s', best) => Some (s', deduplicated ++ [best])
          end
      end
  end.

Definition deduplicate (s : store) (itineraries : list ref)
  : option (store * list ref) :=
  if (length itineraries <=? 1)%nat then Some (s, itineraries)
  else foldl dedupe_step (Some (s, [])) (_group_by_signature s itineraries).

End Dedupe.

(** ** app/core/scoring.py *)

Module Scoring.
Import Heap.

Definition cheap : Weights.t :=
  Weights.mk 0.50 0.15 0.10 0.05 0.05 0.10 0.05.
Definition fast : Weights.t :=
  Weights.mk 0.15 0.45 0.20 0.10 0.02 0.05 0.03.
Definition comfort : Weights.t :=
  Weights.mk 0.20 0.20 0.15 0.15 0.10 0.15 0.05.
Definition balanced : Weights.t :=
  Weights.mk 0.25 0.20 0.15 0.10 0.10 0.15 0.05.

(** [DEFAULT_WEIGHTS.get(priority)] *)
Definition DEFAULT_WEIGHTS (priority : string) : option Weights.t :=
  if String.eqb priority "cheap" then Some cheap
  else if String.eqb priority "fast" then Some fast
  else if String.eqb priority "comfort" then Some comfort
  else if String.eqb priority "balanced" then Some balanced
  else None.

Definition _get_weights (search_intent : option SearchIntent.t) : Weights.t :=
  match search_intent with
  | None => balanced
  | Some intent =>
      let priority := Py.lower (SearchIntent.priority intent) in
      match DEFAULT_WEIGHTS priority with
      | Some w => w
      | None => balanced
      end
  end.

(** [min(xs)] and [max(xs)]; [None] is the ValueError on an empty list *)
Definition py_min (xs : list Q) : option Q :=
  match xs with
  | [] => None
  | x :: rest => Some (foldl (fun m y => if Py.Qltb y m then y else m) x rest)
  end.

Definition py_max (xs : list Q) : option Q :=
  match xs with
  | [] => None
  | x :: rest => Some (foldl (fun m y => if Py.Qltb m y then y else m) x rest)
  end.

(** the same on ints *)
Definition py_min_int (xs : list Z) : option Z :=
  match xs with
  | [] => None
  | x :: rest => Some (foldl (fun m y => if y <? m then y else m) x rest)
  end.

Definition py_max_int (xs : list Z) : option Z :=
  match xs with
  | [] => None
  | x :: rest => Some (foldl (fun m y => if m <? y then y else m) x rest)
  end.

Definition _score_price (itinerary : Itinerary.t) (all_itineraries : list Itinerary.t)
  : option Q :=
  let prices :=
    map (fun itin => Py.fl (PriceBreakdown.total_usd (Itinerary.price itin)))
        all_itineraries in
  match py_min prices, py_max prices with
  | Some min_price, Some max_price =>
      if Py.Qeqb max_price min_price then Some 100%Q
      else
        let total_usd := Py.fl (PriceBreakdown.total_usd (Itinerary.price itinerary)) in
        match Py.fdiv (Py.fsub total_usd min_price) (Py.fsub max_price min_price) with
        | Some ratio => Some (Py.round2 (Py.fmul 100 (Py.fsub 1 ratio)))
        | None => None
        end
  | _, _ => None
  end.

Definition _score_duration (itinerary : Itinerary.t) (all_itineraries : list Itinerary.t)
  : option Q :=
  let durations := map Itinerary.total_duration_minutes all_itineraries in
  match py_min_int durations, py_max_int durations with
  | Some min_dur, Some max_dur =>
      if max_dur =? min_dur then Some 100%Q
      else
        match Py.int_truediv (Itinerary.total_duration_minutes itinerary - min_dur)
                             (max_dur - min_dur) with
        | Some ratio => Some (Py.round2 (Py.fmul 100 (Py.fsub 1 ratio)))
        | None => None
        end
  | _, _ => None
  end.

Definition _score_stops (itinerary : Itinerary.t) : Z :=
  match Itinerary.num_stops itinerary with
  | 0 => 100
  | 1 => 70
  | 2 => 40
  | _ => 10
  end.

(** the score appended for one layover, penalties applied *)
Definition layover_score (layover : Layover.t) : Q :=
  let dur_min := Layover.duration_minutes layover in
  let sc : Q :=
    if (90 <=? dur_min) && (dur_min <=? 180) then 100%Q
    else if (60 <=? dur_min) && (dur_min <? 90) then 80%Q
    else if dur_min <? 60 then 30%Q
    else if (180 <? dur_min) && (dur_min <=? 360) then 70%Q
    else 40%Q in
  let sc := if Layover.overnight layover then Py.fmul sc (Py.fl 0.5) else sc in
  let sc := if Layover.airport_change layover then Py.fmul sc (Py.fl 0.6) else sc in
  sc.

(** [sum(xs)]: the additions from the left, starting from 0 *)
Definition py_sum (xs : list Q) : Q := foldl Py.fadd 0%Q xs.

Definition _score_layovers (itinerary : Itinerary.t) : Q :=
  match Itinerary.layovers itinerary with
  | [] => 100%Q
  | layovers =>
      let scores := map layover_score layovers in
      (* len(scores) is positive here *)
      Py.round2 (Py.fl (py_sum scores / inject_Z (Z.of_nat (length scores))))
  end.

(** one turn of the loop [for bag in itinerary.baggage] *)
Definition baggage_step (score : Z) (bag : Baggage.t) : Z :=
  let score :=
    if Baggage.included bag
       && String.eqb (BaggageType.value (Baggage.type bag)) "carry_on"
    then score + 25 else score in
  let score :=
    if Baggage.included bag
       && String.eqb (BaggageType.value (Baggage.type bag)) "checked"
    then score + 25 else score in
  score.

Definition _score_baggage (itinerary : Itinerary.t) : Z :=
  let score := foldl baggage_step 50 (Itinerary.baggage itinerary) in
  Z.min score 100.

Definition risk_penalties (risk : RiskFlag.t) : Z :=
  match risk with
  | RiskFlag.SELF_TRANSFER => 40
  | RiskFlag.TIGHT_CONNECTION => 15
  | RiskFlag.OVERNIGHT_LAYOVER => 10
  | RiskFlag.SEPARATE_TICKETS => 35
  | RiskFlag.AIRPORT_CHANGE => 20
  | RiskFlag.LONG_LAYOVER => 5
  | RiskFlag.RED_EYE => 8
  end.

Definition _score_risk (itinerary : Itinerary.t) : Z :=
  let base_score :=
    foldl (fun base risk => base - risk_penalties risk) 100
          (Itinerary.risk_flags itinerary) in
  Z.max base_score 0.

Definition _score_reliability (itinerary : Itinerary.t) : Q :=
  let score : Q := 50%Q in
  let trust_score := Py.fl (ProviderMetadata.trust_score (Itinerary.provider itinerary)) in
  let score := Py.fadd score (Py.fmul trust_score 25) in
  let score :=
    match Signals.on_time_proxy (Itinerary.signals itinerary) with
    | Some p =>
        let on_time_proxy := Py.fl p in
        if Py.Qeqb on_time_proxy 0 then score
        else Py.fadd score (Py.fmul on_time_proxy 25)
    | None => score
    end in
  Py.round2 (if Py.Qltb 100 score then 100%Q else score).

(** The ranker object: [self.weights] is fixed at construction from the
    intent. The wording of explanations does not bear on scores or order
    and is kept abstract. *)
Section Ranker.
Variable _generate_explanation : Itinerary.t -> list Itinerary.t -> string.
Variable search_intent : option SearchIntent.t.

Definition weights : Weights.t := _get_weights search_intent.

(** [None] when a built-in or the breakdown's validation raises *)
Definition _calculate_score (s : store) (itinerary : ref) (all_itineraries : list ref)
  : option store :=
  let all := map s all_itineraries in
  match _score_price (s itinerary) all, _score_duration (s itinerary) all with
  | Some price_score, Some duration_score =>
      let stops_score := inject_Z (_score_stops (s itinerary)) in
      let layover_score := _score_layovers (s itinerary) in
      let baggage_score := inject_Z (_score_baggage (s itinerary)) in
      let risk_score := inject_Z (_score_risk (s itinerary)) in
      let reliability_score := _score_reliability (s itinerary) in
      match ScoreBreakdown.create price_score duration_score stops_score
              layover_score baggage_score risk_score reliability_score weights with
      | Some breakdown =>
          let total_score :=
            Py.fadd (Py.fadd (Py.fadd (Py.fadd (Py.fadd (Py.fadd
              (Py.fmul (Py.fl (Weights.price weights)) price_score)
              (Py.fmul (Py.fl (Weights.duration weights)) duration_score))
              (Py.fmul (Py.fl (Weights.stops weights)) stops_score))
              (Py.fmul (Py.fl (Weights.layover weights)) layover_score))
              (Py.fmul (Py.fl (Weights.baggage weights)) baggage_score))
              (Py.fmul (Py.fl (Weights.risk weights)) risk_score))
              (Py.fmul (Py.fl (Weights.reliability weights)) reliability_score) in
          Some (upd s itinerary
                  (Itinerary.set_score (s itinerary) (Py.round2 total_score) breakdown))
      | None => None
      end
  | _, _ => None
  end.

(** [x.score or 0] *)
Definition score_key (x : Itinerary.t) : Q :=
  match Itinerary.score x with
  | Some sc => if Py.Qeqb sc 0 then 0%Q else sc
  | None => 0%Q
  end.

(** [for itin in itineraries: self._calculate_score(itin, itineraries)] *)
Definition score_all (s : store) (itineraries : list ref) : option store :=
  foldl (fun acc itin =>
           match acc with
           | Some s' => _calculate_score s' itin itineraries
           | None => None
           end)
        (Some s) itineraries.

(** [for itin in ranked: itin.explanation = ...] *)
Definition explain_all (s : store) (ranked : list ref) : store :=
  foldl (fun s' itin =>
           upd s' itin
             (Itinerary.set_explanation (s' itin)
                (_generate_explanation (s' itin) (map s' ranked))))
        s ranked.

Definition rank_itineraries (s : store) (itineraries : list ref)
  : option (store * list ref) :=
  match itineraries with
  | [] => Some (s, [])
  | _ =>
      match score_all s itineraries with
      | None => None
      | Some s1 =>
          (* sorted(..., reverse=True): descending, ties in input order *)
          let ranked :=
            Py.sorted (fun x y => negb (Py.Qltb (score_key (s1 x)) (score_key (s1 y))))
                      itineraries in
          Some (explain_all s1 ranked, ranked)
      end
  end.

End Ranker.
End Scoring.

(** ** app/core/price_prediction.py *)

(** Modelled from the spec: the class [PriceReasoning] is imported from the
    schema but not declared there; its four fields are the keyword arguments
    of the constructor call in [_analyze], the advisory of the
    specification: advice, confidence, predicted change and factors. *)
Module PriceReasoning.
Record t : Type := mk {
  advice : string;
  confidence_score : Q;
  predicted_change_usd : Q;
  factors : list string
}.
End PriceReasoning.

Module PricePredictor.

(** the four local variables that the rules of [_analyze] read and assign *)
Record locals : Type := mk_locals {
  advice : string;
  confidence : Q;
  predicted_change : Q;
  factors : list string
}.

Definition initial : locals := mk_locals "monitor" 0.5 0.0 [].

(** 1. Advance Purchase Logic *)
Definition advance_purchase (days_to_departure : Z) (v : locals) : locals :=
  if days_to_departure <? 14 then
    mk_locals "buy_now" 0.9 50.0
      (factors v ++ ["Last minute booking - prices rising daily"%string])
  else if (14 <=? days_to_departure) && (days_to_departure <=? 21) then
    mk_locals "buy_now" 0.8 20.0
      (factors v ++ ["Entering high-price window (< 21 days)"%string])
  else if (21 <? days_to_departure) && (days_to_departure <=? 60) then
    mk_locals "monitor" 0.6 (predicted_change v)
      (factors v ++ ["Standard booking window"%string])
  else if 90 <? days_to_departure then
    mk_locals "wait" 0.75 (-30.0)
      (factors v ++ ["Booking too early - airlines drop prices ~60 days out"%string])
  else v.

(** 2. Day of Week Logic *)
Definition day_of_week_rule (day_of_week : Z) (v : locals) : locals :=
  let v :=
    if (day_of_week =? 4) || (day_of_week =? 6) then
      let v := mk_locals (advice v) (confidence v) (predicted_change v)
                 (factors v ++ ["Weekend departure premium applied"%string]) in
      if String.eqb (advice v) "monitor" then
        mk_locals "wait" (confidence v) (predicted_change v - 15.0)%Q
          (factors v ++ ["Flying Tue/Wed could save ~10%"%string])
      else v
    else v in
  if (day_of_week =? 1) || (day_of_week =? 2) then
    let v := mk_locals (advice v) (confidence v) (predicted_change v)
               (factors v ++ ["Mid-week savings detected"%string]) in
    if String.eqb (advice v) "monitor" then
      mk_locals "buy_now" (confidence v) (predicted_change v) (factors v)
    else v
  else v.

(** 3. Seasonality (Northern Hemisphere) *)
Definition seasonality (month : Z) (v : locals) : locals :=
  if (month =? 6) || (month =? 7) || (month =? 8) || (month =? 12) then
    let v := mk_locals (advice v) (confidence v) (predicted_change v)
               (factors v ++ ["High season demand"%string]) in
    if String.eqb (advice v) "wait" then
      mk_locals "monitor" (confidence v) (predicted_change v + 10.0)%Q (factors v)
    else v
  else v.

(** the rules in sequence, on given readings of the three inputs *)
Definition cascade (days_to_departure day_of_week month : Z) : PriceReasoning.t :=
  let v := advance_purchase days_to_departure initial in
  let v := day_of_week_rule day_of_week v in
  let v := seasonality month v in
  PriceReasoning.mk (advice v)
    (if Py.Qltb 0.95 (confidence v) then 0.95%Q else confidence v)
    (predicted_change v) (factors v).

(** [now] is the reading of [datetime.now()] *)
Definition _analyze (now : PyDatetime.datetime) (itinerary : Itinerary.t)
    (intent : SearchIntent.t) : PriceReasoning.t :=
  let days_to_departure :=
    PyDatetime.days (PyDatetime.sub (SearchIntent.departure_date intent) now) in
  let day_of_week := PyDatetime.weekday (SearchIntent.departure_date intent) in
  let month := PyDatetime.month (SearchIntent.departure_date intent) in
  cascade days_to_departure day_of_week month.

End PricePredictor.

(** ** app/core/cache.py *)

Module CacheManager.

Definition _generate_cache_key (intent : SearchIntent.t) : string :=
  let date_str := PyDatetime.strftime_Y_m_d (SearchIntent.departure_date intent) in
  let key_parts :=
    [ "search"%string;
      Py.join "-" (Py.sorted_str (SearchIntent.origins intent));
      Py.join "-" (Py.sorted_str (SearchIntent.destinations intent));
      date_str;
      CabinClass.value (SearchIntent.cabin_class intent);
      (* str(intent.max_stops or "any") *)
      match SearchIntent.max_stops intent with
      | Some n => if Py.truthy_int (Some n) then Py.str_int n else "any"%string
      | None => "any"%string
      end;
      SearchIntent.priority intent ] in
  let key_parts :=
    if SearchIntent.nonstop_only intent then key_parts ++ ["nonstop"%string]
    else key_parts in
  let key_parts :=
    match SearchIntent.max_price_usd intent with
    | Some p =>
        if Py.truthy_float (Some p)
        then key_parts ++ [("maxprice" ++ Py.str_int (Py.int_of_float p))%string]
        else key_parts
    | None => key_parts
    end in
  Py.join ":" key_parts.

End CacheManager.

(** ** app/services/orchestrator.py *)

Module SearchOrchestrator.

(** The body of the loop of [_filter_by_intent] for one itinerary: [true]
    when the itinerary reaches [filtered.append], [false] when a [continue]
    is taken, [None] for the IndexError of [itin.legs[0]] on no legs. *)
Definition passes (itin : Itinerary.t) (intent : SearchIntent.t) : option bool :=
  match Itinerary.legs itin with
  | [] => None
  | first :: _ =>
      let last := List.last (Itinerary.legs itin) first in
      let origin_match :=
        Py.contains (Airport.code (Leg.origin first)) (SearchIntent.origins intent) in
      let destination_match :=
        Py.contains (Airport.code (Leg.destination last))
                    (SearchIntent.destinations intent) in
      if negb (origin_match && destination_match) then Some false
      else if SearchIntent.nonstop_only intent && negb (Itinerary.is_direct itin)
      then Some false
      else if match SearchIntent.max_stops intent with
              | Some m => m <? Itinerary.num_stops itin
              | None => false
              end
      then Some false
      else if match SearchIntent.max_price_usd intent with
              | Some p =>
                  Py.truthy_float (Some p)
                  && Py.Qltb p (PriceBreakdown.total_usd (Itinerary.price itin))
              | None => false
              end
      then Some false
      else if match SearchIntent.max_duration_hours intent with
              | Some h =>
                  Py.truthy_float (Some h)
                  && (let max_minutes := Py.fmul (Py.fl h) 60 in
                      Py.Qltb max_minutes
                        (inject_Z (Itinerary.total_duration_minutes itin)))
              | None => false
              end
      then Some false
      else if SearchIntent.no_red_eyes intent
              && existsb (fun leg =>
                            let hour := PyDatetime.hour (Leg.departure_time leg) in
                            (22 <=? hour) || (hour <? 5))
                         (Itinerary.legs itin)
      then Some false
      else if SearchIntent.no_overnight_layovers intent
              && existsb Layover.overnight (Itinerary.layovers itin)
      then Some false
      else Some true
  end.

Fixpoint _filter_by_intent (itineraries : list Itinerary.t) (intent : SearchIntent.t)
  : option (list Itinerary.t) :=
  match itineraries with
  | [] => Some []
  | itin :: rest =>
      match passes itin intent with
      | None => None
      | Some keep =>
          match _filter_by_intent rest intent with
          | None => None
          | Some filtered => Some (if keep then itin :: filtered else filtered)
          end
      end
  end.

End SearchOrchestrator.

(** ** Reference data and the notions the statements use *)

(** The example values that the schema classes document in their
    [json_schema_extra], completed with default field values. *)
Module Sample.

Definition JFK : Airport.t :=
  Airport.mk "JFK" "John F Kennedy Intl" "New York" "USA" None.
Definition LAX : Airport.t :=
  Airport.mk "LAX" "Los Angeles Intl" "Los Angeles" "USA" None.

Definition leg_1 : Leg.t :=
  Leg.mk "leg_1" JFK LAX
    (PyDatetime.mk_datetime 2024 6 15 8 0 0 0)
    (PyDatetime.mk_datetime 2024 6 15 11 30 0 0)
    330 "American Airlines" "AA" "AA123" None CabinClass.ECONOMY None None.

Definition price_295 : PriceBreakdown.t :=
  PriceBreakdown.mk 250.0 45.0 0.0 295.0 "USD" None 1.

Definition no_rules : FareRules.t := FareRules.mk false None false None [].

Definition no_signals : Signals.t := Signals.mk None None None None.

Definition provider (name : string) : ProviderMetadata.t :=
  ProviderMetadata.mk name "1" "https://example.com/book"
    (PyDatetime.mk_datetime 2024 6 1 0 0 0 0) 1.0 [].

Definition itin_abc123 : Itinerary.t :=
  Itinerary.mk "itin_abc123" [leg_1] [] 0 330 true price_295 [] no_rules []
    no_signals (provider "Amadeus") None None None.

Definition intent : SearchIntent.t :=
  SearchIntent.mk ["JFK"%string] ["LAX"%string]
    (PyDatetime.mk_datetime 2024 6 15 0 0 0 0) None false 0 false
    CabinClass.ECONOMY 1 None false None None false false "cheap".

Definition carry_on_included : Baggage.t :=
  Baggage.mk BaggageType.CARRY_ON 1 None true None [].

(** one flight offered by two providers, at 100 and at 120 *)
Definition offer (id : string) (name : string) (total : Q) : Itinerary.t :=
  Itinerary.mk id [leg_1] [] 0 330 true
    (PriceBreakdown.mk total 0.0 0.0 total "USD" None 1) [] no_rules []
    no_signals (provider name) None None None.

Definition two_offers : Heap.store :=
  fun r =>
    match r with
    | O => offer "amd_1" "Amadeus" 100
    | _ => offer "sky_9" "Skyscanner" 120
    end.

(** a Friday in July and a moment ten and a half days before it *)
Definition friday_in_july : SearchIntent.t :=
  SearchIntent.mk ["JFK"%string] ["LAX"%string]
    (PyDatetime.mk_datetime 2026 7 17 0 0 0 0) None false 0 false
    CabinClass.ECONOMY 1 None false None None false false "cheap".

Definition ten_days_before : PyDatetime.datetime :=
  PyDatetime.mk_datetime 2026 7 6 12 0 0 0.

(** three included carry-on entries, no checked bag *)
Definition three_carry_ons : Itinerary.t :=
  Itinerary.set_baggage itin_abc123 [carry_on_included; carry_on_included; carry_on_included].

End Sample.

(** The baggage sub-score in the words of the specification: the base, a
    bonus for the presence of an included carry-on, a bonus for the presence
    of an included checked bag, capped. *)
Module BaggageSpec.

Definition is_included (ty : BaggageType.t) (bag : Baggage.t) : bool :=
  Baggage.included bag
  && match ty, Baggage.type bag with
     | BaggageType.CARRY_ON, BaggageType.CARRY_ON => true
     | BaggageType.CHECKED, BaggageType.CHECKED => true
     | BaggageType.PERSONAL_ITEM, BaggageType.PERSONAL_ITEM => true
     | _, _ => false
     end.

(** how many entries of the baggage list are included bags of type [ty] *)
Definition included_entries (ty : BaggageType.t) (itin : Itinerary.t) : Z :=
  Z.of_nat (length (List.filter (is_included ty) (Itinerary.baggage itin))).

Definition any_included (ty : BaggageType.t) (itin : Itinerary.t) : bool :=
  existsb (is_included ty) (Itinerary.baggage itin).

Definition score_by_presence (itin : Itinerary.t) : Z :=
  Z.min 100
    (50 + (if any_included BaggageType.CARRY_ON itin then 25 else 0)
        + (if any_included BaggageType.CHECKED itin then 25 else 0)).

End BaggageSpec.

Module NormalizerSpec.

(** a leg departs in [22:00, 05:00), by the hour of its departure time *)
Definition departs_red_eye (leg : Leg.t) : Prop :=
  22 <= PyDatetime.hour (Leg.departure_time leg)
  \/ PyDatetime.hour (Leg.departure_time leg) < 5.

End NormalizerSpec.

(** The notions in which the deduplicator is specified. *)
Module DedupeSpec.
Import Heap.

Definition signature (s : store) (r : ref) : string :=
  Dedupe._compute_signature (s r).

(** the candidates of a batch that share the signature of [r] *)
Definition group_of (s : store) (itineraries : list ref) (r : ref) : list ref :=
  List.filter (fun x => String.eqb (signature s x) (signature s r)) itineraries.

(** [x] is not after [y] under the key (price ascending, trust descending) *)
Definition precedes (s : store) (x y : ref) : bool :=
  Dedupe.key_le (Dedupe.sort_key (s x)) (Dedupe.sort_key (s y)).

Definition notes_of (x : Itinerary.t) : list string :=
  ProviderMetadata.notes (Itinerary.provider x).

(** how many times the note occurs in the provider notes *)
Definition note_count (note : string) (x : Itinerary.t) : nat :=
  length (List.filter (String.eqb note) (notes_of x)).

(** the provider notes of the winner [w] of [group] once merged: the note
    naming the other providers is appended unless there is no other provider
    or the very same note is already there *)
Definition merged_notes (s : store) (group : list ref) (w : ref) : list string :=
  match Dedupe.other_providers s group w with
  | [] => notes_of (s w)
  | others =>
      if existsb (String.eqb (Dedupe.also_available_note others)) (notes_of (s w))
      then notes_of (s w)
      else notes_of (s w) ++ [Dedupe.also_available_note others]
  end.

(** an itinerary with its provider notes blanked: all that the
    deduplicator never writes *)
Definition strip_notes (x : Itinerary.t) : Itinerary.t :=
  Itinerary.set_provider x (ProviderMetadata.set_notes (Itinerary.provider x) []).

(** the first element of the group in sorted order *)
Definition winner (s : store) (group : list ref) : option ref :=
  head (Py.sorted (precedes s) group).

End DedupeSpec.

Module DedupeGroups.
Import Heap.

(** what the dictionary of groups holds once the batch [l] is read: the
    keys are distinct, each group is the non-empty list of the candidates of
    [l] with that signature, in order, and every candidate's signature is a
    key *)
Definition groups_wf (s : store) (groups : list (string * list ref))
    (l : list ref) : Prop :=
  NoDup (map fst groups)
  /\ (forall k g, (k, g) ∈ groups ->
        g <> [] /\ g = List.filter (fun x => String.eqb (DedupeSpec.signature s x) k) l)
  /\ (forall r, r ∈ l -> DedupeSpec.signature s r ∈ map fst groups).

(** the two stores agree on all but the provider notes *)
Definition same_but_notes (sa sb : store) : Prop :=
  forall r, DedupeSpec.strip_notes (sa r) = DedupeSpec.strip_notes (sb r).

End DedupeGroups.

(** The notions in which the ranker is specified. *)
Module RankSpec.
Import Heap.

(** The constraints that the schema declares on the fields read by the
    reliability sub-score: trust_score and on_time_proxy lie in [0, 1];
    and the bounds within which the float operations of the ranker are
    those of the model: a total price of magnitude at most 2 ** 1023, whose
    differences do not overflow, and at most 2 ** 40 layovers, whose
    count and sum of scores are floats. *)
Definition fields_valid (x : Itinerary.t) : Prop :=
  (0 <= ProviderMetadata.trust_score (Itinerary.provider x) <= 1)%Q
  /\ match Signals.on_time_proxy (Itinerary.signals x) with
     | Some p => (0 <= p <= 1)%Q
     | None => True
     end
  /\ (- inject_Z (2 ^ 1023) <= PriceBreakdown.total_usd (Itinerary.price x)
      <= inject_Z (2 ^ 1023))%Q
  /\ Z.of_nat (length (Itinerary.layovers x)) <= 2 ^ 40.

(** the fields that scoring reads coincide *)
Definition same_inputs (x y : Itinerary.t) : Prop :=
  Itinerary.price x = Itinerary.price y
  /\ Itinerary.total_duration_minutes x = Itinerary.total_duration_minutes y
  /\ Itinerary.num_stops x = Itinerary.num_stops y
  /\ Itinerary.layovers x = Itinerary.layovers y
  /\ Itinerary.baggage x = Itinerary.baggage y
  /\ Itinerary.risk_flags x = Itinerary.risk_flags y
  /\ Itinerary.provider x = Itinerary.provider y
  /\ Itinerary.signals x = Itinerary.signals y.

(** [bd] holds the seven sub-scores of [x] within the batch [all], and the
    weights [w] *)
Definition is_breakdown_of (w : Weights.t) (x : Itinerary.t)
    (all : list Itinerary.t) (bd : ScoreBreakdown.t) : Prop :=
  Scoring._score_price x all = Some (ScoreBreakdown.price_score bd)
  /\ Scoring._score_duration x all = Some (ScoreBreakdown.duration_score bd)
  /\ ScoreBreakdown.stops_score bd = inject_Z (Scoring._score_stops x)
  /\ ScoreBreakdown.layover_score bd = Scoring._score_layovers x
  /\ ScoreBreakdown.baggage_score bd = inject_Z (Scoring._score_baggage x)
  /\ ScoreBreakdown.risk_score bd = inject_Z (Scoring._score_risk x)
  /\ ScoreBreakdown.reliability_score bd = Scoring._score_reliability x
  /\ ScoreBreakdown.weights bd = w.

(** the weighted sum of the seven sub-scores of a breakdown, written out:
    each product and each sum, from the left, is a float operation *)
Abbreviation weighted_sum w bd :=
  (Py.fadd (Py.fadd (Py.fadd (Py.fadd (Py.fadd (Py.fadd
    (Py.fmul (Py.fl (Weights.price w)) (ScoreBreakdown.price_score bd))
    (Py.fmul (Py.fl (Weights.duration w)) (ScoreBreakdown.duration_score bd)))
    (Py.fmul (Py.fl (Weights.stops w)) (ScoreBreakdown.stops_score bd)))
    (Py.fmul (Py.fl (Weights.layover w)) (ScoreBreakdown.layover_score bd)))
    (Py.fmul (Py.fl (Weights.baggage w)) (ScoreBreakdown.baggage_score bd)))
    (Py.fmul (Py.fl (Weights.risk w)) (ScoreBreakdown.risk_score bd)))
    (Py.fmul (Py.fl (Weights.reliability w)) (ScoreBreakdown.reliability_score bd))).

(** in the store [s'], the itinerary [r] carries the breakdown of its
    sub-scores within the batch and their rounded weighted sum *)
Definition scored (w : Weights.t) (s : store) (batch : list ref)
    (s' : store) (r : ref) : Prop :=
  exists bd,
    is_breakdown_of w (s r) (map s batch) bd
    /\ Itinerary.score_breakdown (s' r) = Some bd
    /\ Itinerary.score (s' r) = Some (Py.round2 (weighted_sum w bd)).

End RankSpec.

(** * Properties *)

(** ** Scoring: the baggage sub-score *)

Lemma baggage_step_shift (score : Z) (bag : Baggage.t) :
  Scoring.baggage_step score bag
  = score
    + (if BaggageSpec.is_included BaggageType.CARRY_ON bag then 25 else 0)
    + (if BaggageSpec.is_included BaggageType.CHECKED bag then 25 else 0).
Proof.
  unfold Scoring.baggage_step, BaggageSpec.is_included.
  destruct (Baggage.included bag), (Baggage.type bag); simpl; lia.
Qed.

Lemma baggage_fold_counts (bags : list Baggage.t) (score : Z) :
  foldl Scoring.baggage_step score bags
  = score
    + 25 * Z.of_nat (length (List.filter (BaggageSpec.is_included BaggageType.CARRY_ON) bags))
    + 25 * Z.of_nat (length (List.filter (BaggageSpec.is_included BaggageType.CHECKED) bags)).
Proof.
  revert score. induction bags as [|bag bags IH]; intros score; simpl.
  - lia.
  - rewrite IH, baggage_step_shift.
    destruct (BaggageSpec.is_included BaggageType.CARRY_ON bag),
             (BaggageSpec.is_included BaggageType.CHECKED bag); simpl length; lia.
Qed.

(** C1, as the code has it: the baggage sub-score is 50 plus 25 for every
    included carry-on entry plus 25 for every included checked entry of the
    baggage list, capped at 100. *)
Theorem score_baggage_counts_entries (itin : Itinerary.t) :
  Scoring._score_baggage itin
  = Z.min 100
      (50 + 25 * BaggageSpec.included_entries BaggageType.CARRY_ON itin
          + 25 * BaggageSpec.included_entries BaggageType.CHECKED itin).
Proof.
  unfold Scoring._score_baggage, BaggageSpec.included_entries.
  rewrite baggage_fold_counts. lia.
Qed.

(** C1, the claim as stated fails: three included carry-on entries and no
    checked bag score 100, where scoring by presence gives 75. *)
Lemma score_baggage_three_carry_ons :
  Scoring._score_baggage Sample.three_carry_ons = 100
  /\ BaggageSpec.score_by_presence Sample.three_carry_ons = 75
  /\ Scoring._score_baggage Sample.three_carry_ons
     <> BaggageSpec.score_by_presence Sample.three_carry_ons.
Proof. repeat split. discriminate. Qed.

(** ** Price advisory *)

(** C3: ten days before a Friday departure in July, the advance-purchase
    rule sets buy_now with confidence 0.9 and change +50, the weekend rule
    and the season rule each append their factor and leave the advice
    alone, and the advisory returned is buy_now, 0.9, +50. *)
Theorem price_advisory_friday_in_july
    (now : PyDatetime.datetime) (itinerary : Itinerary.t) (intent : SearchIntent.t) :
  PyDatetime.days (PyDatetime.sub (SearchIntent.departure_date intent) now) = 10 ->
  PyDatetime.weekday (SearchIntent.departure_date intent) = 4 ->
  PyDatetime.month (SearchIntent.departure_date intent) = 7 ->
  let v1 := PricePredictor.advance_purchase 10 PricePredictor.initial in
  let v2 := PricePredictor.day_of_week_rule 4 v1 in
  let v3 := PricePredictor.seasonality 7 v2 in
  (PricePredictor.advice v1 = "buy_now"%string
   /\ PricePredictor.confidence v1 = 0.9%Q
   /\ PricePredictor.predicted_change v1 = 50.0%Q)
  /\ (PricePredictor.factors v2
        = PricePredictor.factors v1 ++ ["Weekend departure premium applied"%string]
      /\ PricePredictor.advice v2 = PricePredictor.advice v1
      /\ PricePredictor.confidence v2 = PricePredictor.confidence v1
      /\ PricePredictor.predicted_change v2 = PricePredictor.predicted_change v1)
  /\ (PricePredictor.factors v3
        = PricePredictor.factors v2 ++ ["High season demand"%string]
      /\ PricePredictor.advice v3 = PricePredictor.advice v2
      /\ PricePredictor.confidence v3 = PricePredictor.confidence v2
      /\ PricePredictor.predicted_change v3 = PricePredictor.predicted_change v2)
  /\ PricePredictor._analyze now itinerary intent
     = PriceReasoning.mk "buy_now" 0.9 50.0
         [ "Last minute booking - prices rising daily"%string;
           "Weekend departure premium applied"%string;
           "High season demand"%string ].
Proof.
  intros Hdays Hdow Hmonth v1 v2 v3.
  unfold PricePredictor._analyze. rewrite Hdays, Hdow, Hmonth.
  repeat split.
Qed.

(** the advisory computed on 2026-07-06 at noon for the Friday 2026-07-17 *)
Lemma price_advisory_friday_in_july_witness :
  PyDatetime.days
    (PyDatetime.sub (SearchIntent.departure_date Sample.friday_in_july)
       Sample.ten_days_before) = 10
  /\ PyDatetime.weekday (SearchIntent.departure_date Sample.friday_in_july) = 4
  /\ PricePredictor._analyze Sample.ten_days_before Sample.itin_abc123
       Sample.friday_in_july
     = PriceReasoning.mk "buy_now" 0.9 50.0
         [ "Last minute booking - prices rising daily"%string;
           "Weekend departure premium applied"%string;
           "High season demand"%string ].
Proof.
  split; [reflexivity|]. split; [reflexivity|].
  apply (price_advisory_friday_in_july Sample.ten_days_before Sample.itin_abc123
           Sample.friday_in_july eq_refl eq_refl eq_refl).
Defined.
(** ** Normalizer *)

Lemma int_of_minutes (td : Z) :
  Py.int_of_float (Qdiv (PyDatetime.total_seconds td) 60) = Z.quot td 60000000.
Proof.
  unfold Py.int_of_float, PyDatetime.total_seconds. simpl.
  rewrite Z.mul_1_r. reflexivity.
Qed.



Lemma elem_of_layover_risks (f : RiskFlag.t) (risks : list RiskFlag.t) (l : Layover.t) :
  f ∈ Normalizer.layover_risks risks l <->
  f ∈ risks
  \/ (f = RiskFlag.TIGHT_CONNECTION /\ Layover.duration_minutes l < 90)
  \/ (f = RiskFlag.LONG_LAYOVER /\ 360 <= Layover.duration_minutes l < 720)
  \/ (f = RiskFlag.OVERNIGHT_LAYOVER
      /\ (Layover.overnight l = true \/ 720 <= Layover.duration_minutes l))
  \/ (f = RiskFlag.AIRPORT_CHANGE /\ Layover.airport_change l = true).
Proof.
  unfold Normalizer.layover_risks.
  destruct (Z.ltb_spec (Layover.duration_minutes l) 90);
    destruct (Z.leb_spec 360 (Layover.duration_minutes l));
    destruct (Z.ltb_spec (Layover.duration_minutes l) 720);
    destruct (Z.leb_spec 720 (Layover.duration_minutes l));
    destruct (Layover.overnight l), (Layover.airport_change l); simpl;
    rewrite ?elem_of_app, ?list_elem_of_singleton;
    try lia; intuition (try discriminate; try lia; auto).
Qed.

Lemma elem_of_layover_scan (f : RiskFlag.t) (ls : list Layover.t) (risks : list RiskFlag.t) :
  f ∈ foldl Normalizer.layover_risks risks ls <->
  f ∈ risks \/ exists l, l ∈ ls /\ f ∈ Normalizer.layover_risks [] l.
Proof.
  revert risks. induction ls as [|l ls IH]; intros risks; simpl.
  - split; [auto|]. intros [H|(l & Hl & _)]; [done|]. by apply elem_of_nil in Hl.
  - rewrite IH. split.
    + intros [H|(l' & Hl' & H)].
      * apply elem_of_layover_risks in H as [H|H]; [by left|].
        right. exists l. split; [apply list_elem_of_here|].
        apply elem_of_layover_risks. by right.
      * right. exists l'. split; [by apply list_elem_of_further|done].
    + intros [H|(l' & Hl' & H)].
      * left. apply elem_of_layover_risks. by left.
      * apply elem_of_cons in Hl' as [-> |Hl'].
        -- apply elem_of_layover_risks in H as [H|H]; [by apply elem_of_nil in H|].
           left. apply elem_of_layover_risks. by right.
        -- right. by exists l'.
Qed.

Lemma elem_of_red_eye_scan (f : RiskFlag.t) (legs : list Leg.t) (risks : list RiskFlag.t) :
  f ∈ Normalizer.red_eye_scan legs risks <->
  f ∈ risks \/ (f = RiskFlag.RED_EYE /\ exists leg, leg ∈ legs /\ NormalizerSpec.departs_red_eye leg).
Proof.
  unfold NormalizerSpec.departs_red_eye.
  induction legs as [|leg legs IH]; simpl.
  - split; [auto|]. intros [H|(_ & leg & Hl & _)]; [done|]. by apply elem_of_nil in Hl.
  - destruct (Z.leb_spec 22 (PyDatetime.hour (Leg.departure_time leg))) as [H22|H22];
      destruct (Z.ltb_spec (PyDatetime.hour (Leg.departure_time leg)) 5) as [H5|H5];
      simpl; try lia.
    + rewrite elem_of_app, list_elem_of_singleton. split.
      * intros [H | ->]; [by left|]. right. split; [done|].
        exists leg. split; [apply list_elem_of_here|lia].
      * intros [H|[-> _]]; auto.
    + rewrite elem_of_app, list_elem_of_singleton. split.
      * intros [H | ->]; [by left|]. right. split; [done|].
        exists leg. split; [apply list_elem_of_here|lia].
      * intros [H|[-> _]]; auto.
    + rewrite IH. split.
      * intros [H|(-> & leg' & Hl & Hh)]; [by left|]. right. split; [done|].
        exists leg'. split; [by apply list_elem_of_further|done].
      * intros [H|(-> & leg' & Hl & Hh)]; [by left|]. right. split; [done|].
        apply elem_of_cons in Hl as [-> |Hl]; [lia|]. by exists leg'.
Qed.

Lemma elem_of_detect_risks (f : RiskFlag.t) (itin : Itinerary.t) :
  f ∈ Normalizer._detect_risks itin <->
  (exists l, l ∈ Itinerary.layovers itin /\ f ∈ Normalizer.layover_risks [] l)
  \/ (f = RiskFlag.RED_EYE
      /\ exists leg, leg ∈ Itinerary.legs itin /\ NormalizerSpec.departs_red_eye leg).
Proof.
  unfold Normalizer._detect_risks, Py.list_of_set.
  rewrite elem_of_remove_dups, elem_of_red_eye_scan, elem_of_layover_scan.
  split; [intros [[H|H]|H]|intros [H|H]]; auto. by apply elem_of_nil in H.
Qed.

Lemma risk_flags_of_normalize (itin : Itinerary.t) :
  Itinerary.risk_flags (Normalizer.normalize itin)
  = Normalizer._detect_risks itin.
Proof. reflexivity. Qed.

(** C6: [normalize] recomputes the risk flags from the layovers and legs
    alone. A flag is in the result exactly when its rule fires on some
    layover (tight_connection below 90 minutes, long_layover from 360
    up to 720, overnight_layover from 720 on or with the overnight mark,
    airport_change with the airport-change mark) or, for red_eye, on some
    leg departing at an hour from 22 on or before 5; the flags that no rule
    produces are absent; no flag occurs twice. *)
Theorem normalize_risk_flags_exact (itin : Itinerary.t) :
  let flags := Itinerary.risk_flags (Normalizer.normalize itin) in
  let layovers := Itinerary.layovers itin in
  NoDup flags
  /\ (RiskFlag.TIGHT_CONNECTION ∈ flags <->
      exists l, l ∈ layovers /\ Layover.duration_minutes l < 90)
  /\ (RiskFlag.LONG_LAYOVER ∈ flags <->
      exists l, l ∈ layovers /\ 360 <= Layover.duration_minutes l < 720)
  /\ (RiskFlag.OVERNIGHT_LAYOVER ∈ flags <->
      exists l, l ∈ layovers
        /\ (Layover.overnight l = true \/ 720 <= Layover.duration_minutes l))
  /\ (RiskFlag.AIRPORT_CHANGE ∈ flags <->
      exists l, l ∈ layovers /\ Layover.airport_change l = true)
  /\ (RiskFlag.RED_EYE ∈ flags <->
      exists leg, leg ∈ Itinerary.legs itin /\ NormalizerSpec.departs_red_eye leg)
  /\ (RiskFlag.SELF_TRANSFER ∉ flags)
  /\ (RiskFlag.SEPARATE_TICKETS ∉ flags).
Proof.
  intros flags layovers. subst flags layovers. rewrite risk_flags_of_normalize.
  split; [apply NoDup_remove_dups|].
  repeat split; rewrite ?elem_of_detect_risks.
  all: try (intros [(l & Hl & H)|[? _]]; [|discriminate];
            apply elem_of_layover_risks in H;
            destruct H as [H|[[? ?]|[[? ?]|[[? ?]|[? ?]]]]];
            try discriminate; try (by apply elem_of_nil in H);
            exists l; split; [done|]; first [done | lia]).
  all: try (intros (l & Hl & H); left; exists l; split; [done|];
            apply elem_of_layover_risks; right; tauto).
  - intros [(l & Hl & H)|[_ H]]; [|done].
    apply elem_of_layover_risks in H.
    destruct H as [H|[[? ?]|[[? ?]|[[? ?]|[? ?]]]]]; try discriminate.
    by apply elem_of_nil in H.
  - intros H. right. by split.
  - intros [(l & Hl & H)|[? _]]; [|discriminate].
    apply elem_of_layover_risks in H.
    destruct H as [H|[[? ?]|[[? ?]|[[? ?]|[? ?]]]]]; try discriminate.
    by apply elem_of_nil in H.
  - intros [(l & Hl & H)|[? _]]; [|discriminate].
    apply elem_of_layover_risks in H.
    destruct H as [H|[[? ?]|[[? ?]|[[? ?]|[? ?]]]]]; try discriminate.
    by apply elem_of_nil in H.
Qed.

(** C10: a second [normalize] changes nothing: num_stops, is_direct and
    total_duration_minutes keep their values and the risk flags are the
    same set. *)
Theorem normalize_idempotent (itin : Itinerary.t) :
  let once := Normalizer.normalize itin in
  let twice := Normalizer.normalize once in
  Itinerary.num_stops twice = Itinerary.num_stops once
  /\ Itinerary.is_direct twice = Itinerary.is_direct once
  /\ Itinerary.total_duration_minutes twice = Itinerary.total_duration_minutes once
  /\ (forall f, f ∈ Itinerary.risk_flags twice <-> f ∈ Itinerary.risk_flags once)
  /\ twice = once.
Proof.
  intros once twice.
  assert (Heq : twice = once).
  { subst once twice. destruct itin as [id legs lays n t d p b fr rf sg pr sc bd ex].
    unfold Normalizer.normalize, Normalizer._detect_risks,
      Itinerary.set_risk_flags, Itinerary.set_derived.
    cbn [Itinerary.itinerary_id Itinerary.legs Itinerary.layovers
         Itinerary.num_stops Itinerary.total_duration_minutes Itinerary.is_direct
         Itinerary.price Itinerary.baggage Itinerary.fare_rules
         Itinerary.risk_flags Itinerary.signals Itinerary.provider
         Itinerary.score Itinerary.score_breakdown Itinerary.explanation].
    destruct legs; reflexivity. }
  rewrite Heq. repeat split; auto.
Qed.

(** ** Sorting *)

Lemma ascii_compare_lt_trans (a b c : ascii) :
  Ascii.compare a b = Lt -> Ascii.compare b c = Lt -> Ascii.compare a c = Lt.
Proof.
  unfold Ascii.compare. rewrite !N.compare_lt_iff. lia.
Qed.

Lemma string_compare_le_trans (s1 : string) :
  forall s2 s3 : string,
    String.compare s1 s2 <> Gt -> String.compare s2 s3 <> Gt ->
    String.compare s1 s3 <> Gt.
Proof.
  induction s1 as [|a s1 IH]; intros [|b s2] [|c s3]; simpl; try congruence.
  destruct (Ascii.compare a b) eqn:Hab; [| |congruence];
    destruct (Ascii.compare b c) eqn:Hbc; try congruence.
  - apply Ascii.compare_eq_iff in Hab, Hbc. subst.
    replace (Ascii.compare c c) with Eq
      by (symmetry; unfold Ascii.compare; apply N.compare_refl).
    apply IH.
  - apply Ascii.compare_eq_iff in Hab. subst. rewrite Hbc. congruence.
  - apply Ascii.compare_eq_iff in Hbc. subst. rewrite Hab. congruence.
  - rewrite (ascii_compare_lt_trans a b c Hab Hbc). congruence.
Qed.

Lemma string_leb_trans (s1 s2 s3 : string) :
  String.leb s1 s2 = true -> String.leb s2 s3 = true -> String.leb s1 s3 = true.
Proof.
  unfold String.leb. intros H12 H23.
  pose proof (string_compare_le_trans s1 s2 s3) as H.
  destruct (String.compare s1 s2), (String.compare s2 s3), (String.compare s1 s3);
    try done; exfalso; apply H; congruence.
Qed.

Section SortedFacts.
Context {A : Type} (le : A -> A -> bool).
Hypothesis le_total : forall x y, le x y = true \/ le y x = true.

Lemma insert_sorted_perm (x : A) (l : list A) : Py.insert_sorted le x l ≡ₚ x :: l.
Proof.
  induction l as [|y l IH]; simpl; [done|].
  destruct (le x y); [done|]. rewrite IH. apply Permutation_swap.
Qed.

Lemma sorted_perm (l : list A) : Py.sorted le l ≡ₚ l.
Proof.
  induction l as [|x l IH]; simpl; [done|].
  unfold Py.sorted in *. simpl. by rewrite insert_sorted_perm, IH.
Qed.

Lemma insert_sorted_Sorted (x : A) (l : list A) :
  Sorted (fun a b => le a b = true) l ->
  Sorted (fun a b => le a b = true) (Py.insert_sorted le x l).
Proof.
  induction 1 as [|y l Hl IH Hhd]; simpl.
  - by repeat constructor.
  - destruct (le x y) eqn:Hxy.
    + constructor; [by constructor|]. by constructor.
    + constructor; [done|].
      destruct l as [|z l]; simpl in *.
      * constructor. destruct (le_total x y); congruence.
      * destruct (le x z); constructor.
        -- destruct (le_total x y); congruence.
        -- by inversion Hhd.
Qed.

Lemma sorted_Sorted (l : list A) : Sorted (fun a b => le a b = true) (Py.sorted le l).
Proof.
  induction l as [|x l IH]; [constructor|].
  unfold Py.sorted in *. simpl. by apply insert_sorted_Sorted.
Qed.
End SortedFacts.

Lemma sorted_str_perm (l1 l2 : list string) :
  l1 ≡ₚ l2 -> Py.sorted_str l1 = Py.sorted_str l2.
Proof.
  intros Hperm. unfold Py.sorted_str.
  assert (Htrans : Transitive (fun a b : string => String.leb a b = true))
    by (intros x y z; apply string_leb_trans).
  assert (Hanti : AntiSymm eq (fun a b : string => String.leb a b = true))
    by (intros x y; apply String.leb_antisym).
  apply (Sorted_unique (fun a b : string => String.leb a b = true)).
  - apply sorted_Sorted. intros x y. apply String.leb_total.
  - apply sorted_Sorted. intros x y. apply String.leb_total.
  - by rewrite !sorted_perm.
Qed.

(** ** Cache key *)

(** C8: two intents that differ only in the order of their origin codes
    and of their destination codes have the same cache key. *)
Theorem cache_key_order_independent
    (intent : SearchIntent.t) (origins' destinations' : list string) :
  SearchIntent.origins intent ≡ₚ origins' ->
  SearchIntent.destinations intent ≡ₚ destinations' ->
  CacheManager._generate_cache_key
    (SearchIntent.set_destinations (SearchIntent.set_origins intent origins')
       destinations')
  = CacheManager._generate_cache_key intent.
Proof.
  intros Ho Hd. unfold CacheManager._generate_cache_key. simpl.
  rewrite (sorted_str_perm _ _ Ho), (sorted_str_perm _ _ Hd). reflexivity.
Qed.

(** origins JFK, LAX and LAX, JFK *)
Lemma cache_key_order_independent_witness :
  let a := SearchIntent.set_origins Sample.intent ["JFK"%string; "LAX"%string] in
  let b := SearchIntent.set_origins Sample.intent ["LAX"%string; "JFK"%string] in
  CacheManager._generate_cache_key b = CacheManager._generate_cache_key a
  /\ CacheManager._generate_cache_key a
     = "search:JFK-LAX:LAX:2024-06-15:economy:any:cheap"%string.
Proof.
  intros a b. split; [|reflexivity].
  exact (cache_key_order_independent a ["LAX"%string; "JFK"%string] ["LAX"%string]
           (Permutation_swap _ _ _) (Permutation_refl _)).
Defined.

(** C2, where the code and the claim part: an intent with max_stops = 0
    gets the stops field "any", not "0", and so, for every intent, the very
    key of the same intent with no max-stops constraint; a max price of 0
    adds no suffix. A limit of 1 and a ceiling of 299.5 are keyed as the
    grammar says. *)
Theorem cache_key_max_stops_zero :
  CacheManager._generate_cache_key (SearchIntent.set_max_stops Sample.intent (Some 0))
  = "search:JFK:LAX:2024-06-15:economy:any:cheap"%string
  /\ (forall intent,
        CacheManager._generate_cache_key (SearchIntent.set_max_stops intent (Some 0))
        = CacheManager._generate_cache_key (SearchIntent.set_max_stops intent None))
  /\ CacheManager._generate_cache_key (SearchIntent.set_max_stops Sample.intent (Some 1))
     = "search:JFK:LAX:2024-06-15:economy:1:cheap"%string
  /\ CacheManager._generate_cache_key
       (SearchIntent.set_max_price_usd Sample.intent (Some 0%Q))
     = "search:JFK:LAX:2024-06-15:economy:any:cheap"%string
  /\ CacheManager._generate_cache_key
       (SearchIntent.set_max_price_usd Sample.intent (Some 299.5%Q))
     = "search:JFK:LAX:2024-06-15:economy:any:cheap:maxprice299"%string.
Proof.
  split; [reflexivity|]. split; [|repeat split].
  intros intent. reflexivity.
Qed.

(** ** Intent filter *)

(** C7, where the code and the claim part: with a max price of 0 set, the
    itinerary priced 295 passes the filter, and for every itinerary a max
    price of 0 filters as no max price does; a max duration of 0 is ignored
    alike. A max price of 100 and a max-stops limit of 0 are enforced. *)
Theorem filter_ignores_max_price_zero :
  let intent := SearchIntent.set_max_price_usd Sample.intent (Some 0%Q) in
  SearchIntent.max_price_usd intent = Some 0%Q
  /\ Py.Qltb 0 (PriceBreakdown.total_usd (Itinerary.price Sample.itin_abc123)) = true
  /\ SearchOrchestrator._filter_by_intent [Sample.itin_abc123] intent
     = Some [Sample.itin_abc123]
  /\ (forall itin i,
        SearchOrchestrator.passes itin (SearchIntent.set_max_price_usd i (Some 0%Q))
        = SearchOrchestrator.passes itin (SearchIntent.set_max_price_usd i None))
  /\ SearchOrchestrator._filter_by_intent [Sample.itin_abc123]
       (SearchIntent.set_max_price_usd Sample.intent (Some 100%Q))
     = Some []
  /\ SearchOrchestrator._filter_by_intent [Sample.itin_abc123]
       (SearchIntent.set_max_duration_hours Sample.intent (Some 0%Q))
     = Some [Sample.itin_abc123]
  /\ SearchOrchestrator._filter_by_intent
       [Itinerary.set_derived Sample.itin_abc123 1 false 330]
       (SearchIntent.set_max_stops Sample.intent (Some 0))
     = Some [].
Proof.
  split; [reflexivity|]. split; [reflexivity|]. split; [reflexivity|].
  split; [intros itin i; reflexivity|]. repeat split.
Qed.

(** ** Deduplicator *)

Section DedupeFacts.
Import Heap.

Lemma key_lt_iff (a b : Q * Q) :
  Dedupe.key_lt a b = true <->
  (fst a < fst b)%Q \/ ((fst a == fst b)%Q /\ (snd a < snd b)%Q).
Proof.
  unfold Dedupe.key_lt, Py.Qeqb, Py.Qltb.
  destruct (Qeq_bool (fst a) (fst b)) eqn:He.
  - apply Qeq_bool_iff in He. rewrite negb_true_iff.
    rewrite <- not_true_iff_false, Qle_bool_iff. split.
    + intros H. right. split; [done|]. by apply Qnot_le_lt.
    + intros [H|[_ H]]; apply Qlt_not_le; [|done]. rewrite He in H.
      by apply Qlt_irrefl in H.
  - apply Qeq_bool_neq in He. rewrite negb_true_iff.
    rewrite <- not_true_iff_false, Qle_bool_iff. split.
    + intros H. left. by apply Qnot_le_lt.
    + intros [H|[H _]]; [by apply Qlt_not_le|done].
Qed.

Lemma key_le_iff (a b : Q * Q) :
  Dedupe.key_le a b = true <->
  (fst a < fst b)%Q \/ ((fst a == fst b)%Q /\ (snd a <= snd b)%Q).
Proof.
  unfold Dedupe.key_le. rewrite negb_true_iff, <- not_true_iff_false, key_lt_iff.
  split.
  - intros H. destruct (Q_dec (fst a) (fst b)) as [[Hlt|Hgt]|Heq].
    + by left.
    + exfalso. apply H. by left.
    + right. split; [done|]. apply Qnot_lt_le. intros Hlt. apply H. right.
      split; [by symmetry|done].
  - intros [H|[He H]] [H'|[He' H']]; lra.
Qed.

Lemma key_le_total (a b : Q * Q) :
  Dedupe.key_le a b = true \/ Dedupe.key_le b a = true.
Proof.
  rewrite !key_le_iff.
  destruct (Q_dec (fst a) (fst b)) as [[Hlt|Hgt]|Heq]; [by left; left|by right; left|].
  destruct (Qlt_le_dec (snd b) (snd a)).
  - right. right. split; [by symmetry|]. by apply Qlt_le_weak.
  - left. right. done.
Qed.

Lemma key_le_trans (a b c : Q * Q) :
  Dedupe.key_le a b = true -> Dedupe.key_le b c = true -> Dedupe.key_le a c = true.
Proof.
  rewrite !key_le_iff. intros [H|[He H]] [H'|[He' H']].
  - left. lra.
  - left. lra.
  - left. lra.
  - right. split; lra.
Qed.

Lemma winner_minimal (s : store) (group : list ref) (w : ref) :
  DedupeSpec.winner s group = Some w ->
  w ∈ group /\ forall d, d ∈ group -> DedupeSpec.precedes s w d = true.
Proof.
  unfold DedupeSpec.winner. intros Hw.
  pose proof (sorted_perm (DedupeSpec.precedes s) group) as Hperm.
  pose proof (sorted_Sorted (DedupeSpec.precedes s)
                (fun x y => key_le_total _ _) group) as Hsorted.
  destruct (Py.sorted (DedupeSpec.precedes s) group) as [|w' rest]; [done|].
  simpl in Hw. injection Hw as ->.
  assert (Htrans : Transitive (fun a b => DedupeSpec.precedes s a b = true))
    by (intros x y z; apply key_le_trans).
  apply Sorted_StronglySorted in Hsorted; [|done].
  apply StronglySorted_cons in Hsorted as [Hall _].
  split.
  - rewrite <- Hperm. apply list_elem_of_here.
  - intros d Hd. rewrite <- Hperm in Hd. apply elem_of_cons in Hd as [-> | Hd].
    + destruct (key_le_total (Dedupe.sort_key (s w)) (Dedupe.sort_key (s w))); done.
    + rewrite Forall_forall in Hall. by apply Hall.
Qed.

Lemma winner_is_Some (s : store) (group : list ref) :
  group <> [] -> exists w, DedupeSpec.winner s group = Some w.
Proof.
  intros Hne. unfold DedupeSpec.winner.
  pose proof (sorted_perm (DedupeSpec.precedes s) group) as Hperm.
  destruct (Py.sorted (DedupeSpec.precedes s) group) as [|w rest]; [|by exists w].
  by apply Permutation_nil in Hperm.
Qed.

End DedupeFacts.

Section GroupFacts.
Import Heap.

Lemma groups_append_spec (groups : list (string * list ref)) (k : string) (r : ref) :
  (exists G1 g G2,
      groups = G1 ++ (k, g) :: G2 /\ (k ∉ map fst G1)
      /\ Dedupe.groups_append groups k r = G1 ++ (k, g ++ [r]) :: G2)
  \/ ((k ∉ map fst groups) /\ Dedupe.groups_append groups k r = groups ++ [(k, [r])]).
Proof.
  induction groups as [|[k0 g0] groups IH]; simpl.
  - right. split; [apply not_elem_of_nil|done].
  - destruct (String.eqb_spec k0 k) as [->|Hne].
    + left. exists [], g0, groups. repeat split. apply not_elem_of_nil.
    + destruct IH as [(G1 & g & G2 & -> & Hnin & ->)|[Hnin ->]].
      * left. exists ((k0, g0) :: G1), g, G2. repeat split.
        simpl. rewrite not_elem_of_cons. split; [congruence|done].
      * right. split; [|done]. rewrite not_elem_of_cons. split; [congruence|done].
Qed.

Lemma filter_snoc {A : Type} (f : A -> bool) (l : list A) (x : A) :
  List.filter f (l ++ [x]) = List.filter f l ++ (if f x then [x] else []).
Proof. rewrite List.filter_app. reflexivity. Qed.

Lemma filter_none {A : Type} (f : A -> bool) (l : list A) :
  (forall x, x ∈ l -> f x = false) -> List.filter f l = [].
Proof.
  induction l as [|x l IH]; simpl; [done|]. intros H.
  rewrite (H x (list_elem_of_here _ _)). apply IH. intros y Hy. apply H.
  by apply list_elem_of_further.
Qed.

Lemma groups_wf_append (s : store) (groups : list (string * list ref))
    (l : list ref) (r : ref) :
  DedupeGroups.groups_wf s groups l ->
  DedupeGroups.groups_wf s
    (Dedupe.groups_append groups (DedupeSpec.signature s r) r) (l ++ [r]).
Proof.
  intros (Hnodup & Hgroups & Hkeys).
  set (k := DedupeSpec.signature s r).
  destruct (groups_append_spec groups k r)
    as [(G1 & g & G2 & HG & Hnin & ->)|[Hnin ->]].
  - subst groups. split; [|split].
    + rewrite map_app in *. simpl in *. done.
    + intros k0 g0 H.
      assert (Hcase : (k0, g0) = (k, g ++ [r])
                      \/ ((k0, g0) ∈ G1 ++ (k, g) :: G2 /\ k0 <> k)).
      { apply elem_of_app in H as [H|H].
        - right. split; [apply elem_of_app; by left|].
          intros ->. apply Hnin. apply list_elem_of_fmap. by exists (k, g0).
        - apply elem_of_cons in H as [H|H]; [by left|]. right.
          split; [apply elem_of_app; right; by apply list_elem_of_further|].
          intros ->. rewrite map_app in Hnodup. simpl in Hnodup.
          apply NoDup_app in Hnodup as (_ & _ & Hnodup).
          apply NoDup_cons in Hnodup as [Hk _]. apply Hk.
          apply list_elem_of_fmap. by exists (k, g0). }
      destruct Hcase as [Heq|[Hin Hne]].
      * injection Heq as -> ->. split; [by destruct g|]. rewrite filter_snoc.
        destruct (Hgroups k g) as [_ <-].
        { apply elem_of_app. right. apply list_elem_of_here. }
        fold k. by rewrite String.eqb_refl.
      * destruct (Hgroups k0 g0 Hin) as [Hne0 Hg0]. split; [done|].
        rewrite filter_snoc, <- Hg0.
        fold k. destruct (String.eqb_spec k k0); [congruence|].
        by rewrite app_nil_r.
    + intros r' Hr'. rewrite map_app. simpl.
      apply elem_of_app in Hr' as [Hr'|Hr'].
      * specialize (Hkeys r' Hr'). by rewrite map_app in Hkeys.
      * apply list_elem_of_singleton in Hr' as ->. fold k.
        apply elem_of_app. right. apply list_elem_of_here.
  - split; [|split].
    + rewrite map_app. simpl. apply NoDup_app. repeat split; [done| |].
      * intros x Hx Hx'. apply list_elem_of_singleton in Hx' as ->. done.
      * apply NoDup_singleton.
    + intros k0 g0 H. apply elem_of_app in H as [H|H].
      * destruct (Hgroups k0 g0 H) as [Hne0 Hg0]. split; [done|].
        rewrite filter_snoc, <- Hg0. fold k.
        destruct (String.eqb_spec k k0) as [<-|Hne]; [|by rewrite app_nil_r].
        exfalso. apply Hnin. apply list_elem_of_fmap. by exists (k, g0).
      * apply list_elem_of_singleton in H. injection H as -> ->. split; [done|].
        rewrite filter_snoc. fold k. rewrite String.eqb_refl.
        rewrite filter_none; [done|].
        intros x Hx.
        destruct (String.eqb_spec (DedupeSpec.signature s x) k) as [He|]; [|done].
        exfalso. apply Hnin. rewrite <- He. by apply Hkeys.
    + intros r' Hr'. rewrite map_app. simpl. apply elem_of_app.
      apply elem_of_app in Hr' as [Hr'|Hr'].
      * left. by apply Hkeys.
      * apply list_elem_of_singleton in Hr' as ->. right. apply list_elem_of_here.
Qed.

Lemma group_by_signature_fold (s : store) (rest : list ref) :
  forall groups l,
    DedupeGroups.groups_wf s groups l ->
    DedupeGroups.groups_wf s
      (foldl (fun groups r =>
                Dedupe.groups_append groups (Dedupe._compute_signature (s r)) r)
             groups rest)
      (l ++ rest).
Proof.
  induction rest as [|r rest IH]; intros groups l Hwf; simpl.
  - by rewrite app_nil_r.
  - replace (l ++ r :: rest) with ((l ++ [r]) ++ rest) by by rewrite <- app_assoc.
    apply IH. by apply groups_wf_append.
Qed.

Lemma group_by_signature_wf (s : store) (l : list ref) :
  DedupeGroups.groups_wf s (Dedupe._group_by_signature s l) l.
Proof.
  apply (group_by_signature_fold s l [] []).
  split; [constructor|split].
  - intros k g H. by apply elem_of_nil in H.
  - intros r Hr. by apply elem_of_nil in Hr.
Qed.

End GroupFacts.

Section DedupeFold.
Import Heap.

Lemma sorted_ext {A : Type} (le1 le2 : A -> A -> bool) (l : list A) :
  (forall x y, le1 x y = le2 x y) -> Py.sorted le1 l = Py.sorted le2 l.
Proof.
  intros Hext. unfold Py.sorted.
  induction l as [|x l IH]; simpl; [done|]. rewrite IH.
  generalize (foldr (Py.insert_sorted le2) [] l). intros l'.
  induction l' as [|y l' IH']; simpl; [done|]. by rewrite Hext, IH'.
Qed.

Lemma sort_key_strip (x : Itinerary.t) :
  Dedupe.sort_key (DedupeSpec.strip_notes x) = Dedupe.sort_key x.
Proof. reflexivity. Qed.

Lemma same_but_notes_key (sa sb : store) (r : ref) :
  DedupeGroups.same_but_notes sa sb -> Dedupe.sort_key (sa r) = Dedupe.sort_key (sb r).
Proof. intros H. by rewrite <- (sort_key_strip (sa r)), H. Qed.

Lemma same_but_notes_id (sa sb : store) (r : ref) :
  DedupeGroups.same_but_notes sa sb ->
  Itinerary.itinerary_id (sa r) = Itinerary.itinerary_id (sb r).
Proof.
  intros H. change (Itinerary.itinerary_id (DedupeSpec.strip_notes (sa r))
                    = Itinerary.itinerary_id (sb r)). by rewrite H.
Qed.

Lemma same_but_notes_name (sa sb : store) (r : ref) :
  DedupeGroups.same_but_notes sa sb ->
  ProviderMetadata.provider_name (Itinerary.provider (sa r))
  = ProviderMetadata.provider_name (Itinerary.provider (sb r)).
Proof.
  intros H.
  change (ProviderMetadata.provider_name
            (Itinerary.provider (DedupeSpec.strip_notes (sa r)))
          = ProviderMetadata.provider_name (Itinerary.provider (sb r))).
  by rewrite H.
Qed.

Lemma same_but_notes_winner (sa sb : store) (g : list ref) :
  DedupeGroups.same_but_notes sa sb -> DedupeSpec.winner sa g = DedupeSpec.winner sb g.
Proof.
  intros H. unfold DedupeSpec.winner. f_equal. apply sorted_ext.
  intros x y. unfold DedupeSpec.precedes.
  by rewrite (same_but_notes_key sa sb x H), (same_but_notes_key sa sb y H).
Qed.

Lemma same_but_notes_others (sa sb : store) (g : list ref) (w : ref) :
  DedupeGroups.same_but_notes sa sb ->
  Dedupe.other_providers sa g w = Dedupe.other_providers sb g w.
Proof.
  intros H. unfold Dedupe.other_providers.
  rewrite (same_but_notes_id sa sb w H).
  induction g as [|x g IH]; simpl; [done|].
  rewrite (same_but_notes_id sa sb x H).
  destruct (negb _); simpl; [|done].
  by rewrite IH, (same_but_notes_name sa sb x H).
Qed.

Lemma same_but_notes_merged (sa sb : store) (g : list ref) (w : ref) :
  DedupeGroups.same_but_notes sa sb ->
  DedupeSpec.notes_of (sa w) = DedupeSpec.notes_of (sb w) ->
  DedupeSpec.merged_notes sa g w = DedupeSpec.merged_notes sb g w.
Proof.
  intros H Hn. unfold DedupeSpec.merged_notes.
  by rewrite (same_but_notes_others sa sb g w H), Hn.
Qed.

Lemma upd_same (s : store) (r : ref) (v : Itinerary.t) : upd s r v r = v.
Proof. unfold upd. by rewrite Nat.eqb_refl. Qed.

Lemma upd_other (s : store) (r r' : ref) (v : Itinerary.t) :
  r' <> r -> upd s r v r' = s r'.
Proof. unfold upd. intros H. by destruct (Nat.eqb_spec r' r). Qed.

Lemma select_best_spec (s : store) (g : list ref) (w : ref) :
  DedupeSpec.winner s g = Some w ->
  exists s',
    Dedupe._select_best s g = Some (s', w)
    /\ (forall r, r <> w -> s' r = s r)
    /\ DedupeSpec.strip_notes (s' w) = DedupeSpec.strip_notes (s w)
    /\ ((1 < length g)%nat ->
        DedupeSpec.notes_of (s' w) = DedupeSpec.merged_notes s g w).
Proof.
  unfold DedupeSpec.winner, Dedupe._select_best, DedupeSpec.merged_notes.
  change (fun x y => Dedupe.key_le (Dedupe.sort_key (s x)) (Dedupe.sort_key (s y)))
    with (DedupeSpec.precedes s).
  destruct (Py.sorted (DedupeSpec.precedes s) g) as [|best rest]; [done|].
  simpl. intros [= ->].
  destruct (Nat.ltb_spec 1 (length g)) as [Hlen|Hlen].
  - destruct (Dedupe.other_providers s g w) as [|o others] eqn:Hothers.
    + exists s. repeat split; done.
    + fold (DedupeSpec.notes_of (s w)).
      destruct (existsb _ (DedupeSpec.notes_of (s w))) eqn:Hnote.
      * exists s. repeat split; done.
      * eexists. split; [reflexivity|]. split; [|split].
        -- intros r Hr. by apply upd_other.
        -- by rewrite upd_same.
        -- intros _. by rewrite upd_same.
  - exists s. repeat split; try done. lia.
Qed.

Lemma dedupe_fold (s : store) (groups : list (string * list ref)) :
  forall (s1 : store) (out1 : list ref),
    NoDup (map fst groups) ->
    (forall k g, (k, g) ∈ groups ->
       g <> [] /\ forall x, x ∈ g -> DedupeSpec.signature s x = k) ->
    DedupeGroups.same_but_notes s1 s ->
    exists s2 out2,
      foldl Dedupe.dedupe_step (Some (s1, out1)) groups = Some (s2, out1 ++ out2)
      /\ DedupeGroups.same_but_notes s2 s
      /\ (forall r, DedupeSpec.signature s r ∉ map fst groups -> s2 r = s1 r)
      /\ Forall2 (fun kg w => DedupeSpec.winner s (snd kg) = Some w) groups out2
      /\ (forall k g w, (k, g) ∈ groups -> (1 < length g)%nat ->
            DedupeSpec.winner s g = Some w ->
            DedupeSpec.notes_of (s2 w) = DedupeSpec.merged_notes s1 g w).
Proof.
  induction groups as [|[k g] groups IH]; intros s1 out1 Hnodup Hgroups Hframe.
  - exists s1, []. simpl. rewrite app_nil_r. repeat split; try done.
    intros k g w H. by apply elem_of_nil in H.
  - simpl in Hnodup. apply NoDup_cons in Hnodup as [Hk Hnodup].
    destruct (Hgroups k g (list_elem_of_here _ _)) as [Hne Hsig].
    destruct (winner_is_Some s g Hne) as [w Hw].
    destruct (winner_minimal s g w Hw) as [Hwin _].
    assert (Hsigw : DedupeSpec.signature s w = k) by by apply Hsig.
    assert (Hgroups' : forall k' g', (k', g') ∈ groups ->
              g' <> [] /\ forall x, x ∈ g' -> DedupeSpec.signature s x = k').
    { intros k' g' H. apply Hgroups. by apply list_elem_of_further. }
    (* the state after this group *)
    assert (Hstep : exists s1',
               Dedupe.dedupe_step (Some (s1, out1)) (k, g) = Some (s1', out1 ++ [w])
               /\ (forall r, r <> w -> s1' r = s1 r)
               /\ DedupeSpec.strip_notes (s1' w) = DedupeSpec.strip_notes (s1 w)
               /\ ((1 < length g)%nat ->
                   DedupeSpec.notes_of (s1' w) = DedupeSpec.merged_notes s1 g w)).
    { rewrite <- (same_but_notes_winner s1 s g Hframe) in Hw.
      destruct (select_best_spec s1 g w Hw) as (s1' & Hsel & Hother & Hstrip & Hnotes).
      unfold Dedupe.dedupe_step. simpl snd.
      destruct g as [|x [|y g]]; [done| |].
      - exists s1. unfold DedupeSpec.winner in Hw. simpl in Hw. injection Hw as ->.
        repeat split; try done. simpl. lia.
      - exists s1'. rewrite Hsel. done. }
    destruct Hstep as (s1' & Hstep & Hother & Hstrip & Hnotes).
    assert (Hframe' : DedupeGroups.same_but_notes s1' s).
    { intros r. destruct (decide (r = w)) as [->|Hr].
      - by rewrite Hstrip.
      - by rewrite Hother. }
    destruct (IH s1' (out1 ++ [w]) Hnodup Hgroups' Hframe')
      as (s2 & out2 & Hfold & Hframe2 & Hkeep & Hwinners & Hmerged).
    exists s2, (w :: out2).
    change (foldl Dedupe.dedupe_step (Some (s1, out1)) ((k, g) :: groups))
      with (foldl Dedupe.dedupe_step
              (Dedupe.dedupe_step (Some (s1, out1)) (k, g)) groups).
    rewrite Hstep, Hfold.
    split; [by rewrite <- app_assoc|]. split; [done|]. split; [|split].
    + intros r Hr. simpl in Hr. apply not_elem_of_cons in Hr as [Hrk Hr].
      rewrite (Hkeep r Hr). apply Hother. congruence.
    + by constructor.
    + intros k' g' w' Hin Hlen Hw'.
      apply elem_of_cons in Hin as [Heq|Hin].
      * injection Heq as -> ->. assert (w' = w) as -> by congruence.
        rewrite Hkeep; [by apply Hnotes|]. by rewrite Hsigw.
      * rewrite (Hmerged k' g' w' Hin Hlen Hw').
        apply same_but_notes_merged.
        -- intros r. by rewrite Hframe', Hframe.
        -- destruct (winner_minimal s g' w' Hw') as [Hwin' _].
           destruct (Hgroups' k' g' Hin) as [_ Hsig'].
           rewrite Hother; [done|]. intros ->.
           apply Hk. rewrite <- Hsigw, (Hsig' w Hwin').
           apply list_elem_of_fmap. by exists (k', g').
Qed.

Lemma filter_winners (s : store) (groups : list (string * list ref))
    (out : list ref) (k0 : string) (g0 : list ref) :
  NoDup (map fst groups) ->
  Forall2 (fun kg w => DedupeSpec.winner s (snd kg) = Some w) groups out ->
  (forall k g w, (k, g) ∈ groups -> DedupeSpec.winner s g = Some w ->
     DedupeSpec.signature s w = k) ->
  (k0, g0) ∈ groups ->
  exists w0,
    DedupeSpec.winner s g0 = Some w0
    /\ List.filter (fun x => String.eqb (DedupeSpec.signature s x) k0) out = [w0].
Proof.
  intros Hnodup Hall. revert Hnodup.
  induction Hall as [|[k g] w groups out Hw Hall IH]; intros Hnodup Hsig Hin.
  - by apply elem_of_nil in Hin.
  - simpl in *. apply NoDup_cons in Hnodup as [Hk Hnodup].
    assert (Hsigw : DedupeSpec.signature s w = k)
      by (apply (Hsig k g w); [apply list_elem_of_here|done]).
    assert (Hsig' : forall k' g' w', (k', g') ∈ groups ->
              DedupeSpec.winner s g' = Some w' -> DedupeSpec.signature s w' = k').
    { intros k' g' w' H. apply Hsig. by apply list_elem_of_further. }
    apply elem_of_cons in Hin as [Heq|Hin].
    + injection Heq as -> ->. exists w. split; [done|].
      rewrite Hsigw, String.eqb_refl. f_equal.
      apply filter_none. intros x Hx.
      destruct (String.eqb_spec (DedupeSpec.signature s x) k) as [He|]; [|done].
      exfalso. apply Hk.
      apply list_elem_of_lookup in Hx as [i Hi].
      destruct (Forall2_lookup_r _ _ _ _ _ Hall Hi) as ([k' g'] & Hkg & Hw').
      simpl in Hw'. apply list_elem_of_fmap. exists (k', g'). split.
      * simpl. rewrite <- He. apply (Hsig' k' g' x); [|done].
        apply list_elem_of_lookup. by exists i.
      * apply list_elem_of_lookup. by exists i.
    + destruct (IH Hnodup Hsig' Hin) as (w0 & Hw0 & Hfilter).
      exists w0. split; [done|]. rewrite Hsigw.
      destruct (String.eqb_spec k k0) as [->|Hne]; [|done].
      exfalso. apply Hk. apply list_elem_of_fmap. by exists (k0, g0).
Qed.

End DedupeFold.

Section DedupeMain.
Import Heap.

Lemma deduplicate_groups (s : store) (l : list ref) :
  exists s' out,
    Dedupe.deduplicate s l = Some (s', out)
    /\ DedupeGroups.same_but_notes s' s
    /\ forall r, r ∈ l ->
         let group := DedupeSpec.group_of s l r in
         (1 < length group)%nat ->
         exists w,
           DedupeSpec.winner s group = Some w
           /\ w ∈ group
           /\ (forall d, d ∈ group -> DedupeSpec.precedes s w d = true)
           /\ DedupeSpec.group_of s out r = [w]
           /\ DedupeSpec.notes_of (s' w) = DedupeSpec.merged_notes s group w.
Proof.
  unfold Dedupe.deduplicate.
  destruct (Nat.leb_spec (length l) 1) as [Hshort|_].
  { exists s, l. split; [done|]. split; [done|]. intros r _. cbv zeta.
    intros Hgroup.
    pose proof (List.filter_length_le
                  (fun x => String.eqb (DedupeSpec.signature s x)
                                       (DedupeSpec.signature s r)) l) as Hle.
    unfold DedupeSpec.group_of in Hgroup. lia. }
  destruct (group_by_signature_wf s l) as (Hnodup & Hgroups & Hkeys).
  assert (Hsig : forall k g, (k, g) ∈ Dedupe._group_by_signature s l ->
            g <> [] /\ forall x, x ∈ g -> DedupeSpec.signature s x = k).
  { intros k g Hin. destruct (Hgroups k g Hin) as [Hne ->]. split; [done|].
    intros x Hx. apply list_elem_of_In, List.filter_In in Hx as [_ Hx].
    by apply String.eqb_eq. }
  destruct (dedupe_fold s (Dedupe._group_by_signature s l) s [] Hnodup Hsig)
    as (s' & out & Hfold & Hframe & _ & Hwinners & Hmerged); [done|].
  exists s', out. split; [done|]. split; [done|].
  intros r Hr Hgroup. set (group := DedupeSpec.group_of s l r) in *.
  apply Hkeys, list_elem_of_fmap in Hr as ([k g] & Hk & Hin). simpl in Hk.
  assert (Hg : g = group).
  { destruct (Hgroups k g Hin) as [_ ->]. by rewrite <- Hk. }
  subst g.
  destruct (filter_winners s _ out k group Hnodup Hwinners) as (w & Hw & Hfilter);
    [|done|].
  { intros k' g' w' Hin' Hw'. destruct (Hsig k' g' Hin') as [_ Hsig'].
    apply Hsig'. by destruct (winner_minimal s g' w' Hw'). }
  exists w. destruct (winner_minimal s group w Hw) as [Hwin Hmin].
  repeat split; try done.
  - unfold DedupeSpec.group_of. by rewrite Hk.
  - by apply (Hmerged k).
Qed.

Lemma note_count_has_note (note : string) (x : Itinerary.t) :
  existsb (String.eqb note) (DedupeSpec.notes_of x) = true <->
  (0 < DedupeSpec.note_count note x)%nat.
Proof.
  unfold DedupeSpec.note_count.
  induction (DedupeSpec.notes_of x) as [|n ns IH]; simpl.
  - split; [done|lia].
  - destruct (String.eqb note n); simpl; [|done]. split; [lia|done].
Qed.

Lemma note_count_add_note (note : string) (x : Itinerary.t) :
  DedupeSpec.note_count note (Dedupe.add_note x note)
  = S (DedupeSpec.note_count note x).
Proof.
  unfold DedupeSpec.note_count, Dedupe.add_note, DedupeSpec.notes_of. simpl.
  rewrite filter_snoc, String.eqb_refl, length_app. simpl. lia.
Qed.

(** the cheaper of two candidates with one signature wins in either order *)
Lemma deduplicate_pair_eval (s : store) (a b : ref) (l : list ref) :
  l = [a; b] \/ l = [b; a] ->
  DedupeSpec.signature s a = DedupeSpec.signature s b ->
  (PriceBreakdown.total_usd (Itinerary.price (s a)) == 100)%Q ->
  (PriceBreakdown.total_usd (Itinerary.price (s b)) == 120)%Q ->
  Itinerary.itinerary_id (s a) <> Itinerary.itinerary_id (s b) ->
  let note :=
    Dedupe.also_available_note
      [ProviderMetadata.provider_name (Itinerary.provider (s b))] in
  Dedupe.deduplicate s l
  = Some (if existsb (String.eqb note) (DedupeSpec.notes_of (s a)) then s
          else upd s a (Dedupe.add_note (s a) note),
          [a]).
Proof.
  intros Hl Hsig Hpa Hpb Hid note.
  assert (Hab : DedupeSpec.precedes s a b = true).
  { unfold DedupeSpec.precedes. apply key_le_iff. left. simpl. lra. }
  assert (Hba : DedupeSpec.precedes s b a = false).
  { unfold DedupeSpec.precedes. apply not_true_iff_false. rewrite key_le_iff.
    simpl. lra. }
  assert (Hida : String.eqb (Itinerary.itinerary_id (s a)) (Itinerary.itinerary_id (s a)) = true)
    by apply String.eqb_refl.
  assert (Hidb : String.eqb (Itinerary.itinerary_id (s b)) (Itinerary.itinerary_id (s a)) = false).
  { apply String.eqb_neq. congruence. }
  unfold DedupeSpec.signature in Hsig.
  destruct Hl as [-> | ->]; unfold Dedupe.deduplicate, Dedupe._group_by_signature;
    simpl; rewrite ?Hsig, ?String.eqb_refl; simpl;
    unfold Dedupe._select_best, Py.sorted; simpl;
    fold (DedupeSpec.precedes s a b); fold (DedupeSpec.precedes s b a);
    rewrite ?Hab, ?Hba; unfold Dedupe.other_providers; simpl;
    rewrite Hida, Hidb; simpl; fold note; fold (DedupeSpec.notes_of (s a));
    by destruct (existsb _ _).
Qed.

Lemma deduplicate_pair (s : store) (a b : ref) (l : list ref) :
  l = [a; b] \/ l = [b; a] ->
  DedupeSpec.signature s a = DedupeSpec.signature s b ->
  (PriceBreakdown.total_usd (Itinerary.price (s a)) == 100)%Q ->
  (PriceBreakdown.total_usd (Itinerary.price (s b)) == 120)%Q ->
  Itinerary.itinerary_id (s a) <> Itinerary.itinerary_id (s b) ->
  let note :=
    Dedupe.also_available_note
      [ProviderMetadata.provider_name (Itinerary.provider (s b))] in
  (DedupeSpec.note_count note (s a) <= 1)%nat ->
  exists s',
    Dedupe.deduplicate s l = Some (s', [a])
    /\ (PriceBreakdown.total_usd (Itinerary.price (s' a)) == 100)%Q
    /\ DedupeSpec.note_count note (s' a) = 1%nat
    /\ Dedupe.deduplicate s' [a] = Some (s', [a])
    /\ Dedupe.deduplicate s' l = Some (s', [a]).
Proof.
  intros Hl Hsig Hpa Hpb Hid note Hcount.
  assert (Hne : a <> b) by (intros ->; rewrite Hpa in Hpb; lra).
  pose proof (deduplicate_pair_eval s a b l Hl Hsig Hpa Hpb Hid) as Heval.
  fold note in Heval. cbv zeta in Heval.
  destruct (existsb (String.eqb note) (DedupeSpec.notes_of (s a))) eqn:Hhas.
  - exists s. split; [done|]. split; [done|]. split; [|split; done].
    apply note_count_has_note in Hhas. lia.
  - set (s' := upd s a (Dedupe.add_note (s a) note)) in *.
    assert (Hsa : s' a = Dedupe.add_note (s a) note) by apply upd_same.
    assert (Hsb : s' b = s b) by (apply upd_other; congruence).
    exists s'. split; [done|]. split; [by rewrite Hsa|].
    assert (Hcount' : DedupeSpec.note_count note (s' a) = 1%nat).
    { rewrite Hsa, note_count_add_note.
      destruct (DedupeSpec.note_count note (s a)) eqn:Hc; [done|].
      assert (Hpos : (0 < DedupeSpec.note_count note (s a))%nat) by lia.
      apply note_count_has_note in Hpos. congruence. }
    split; [done|]. split; [done|].
    pose proof (deduplicate_pair_eval s' a b l Hl) as Heval'.
    rewrite Hsb in Heval'. fold note in Heval'. cbv zeta in Heval'.
    assert (Hhas' : existsb (String.eqb note) (DedupeSpec.notes_of (s' a)) = true).
    { apply note_count_has_note. lia. }
    rewrite Hhas' in Heval'. apply Heval'.
    + unfold DedupeSpec.signature. by rewrite Hsa, Hsb.
    + by rewrite Hsa.
    + done.
    + by rewrite Hsa.
Qed.

End DedupeMain.

(** ** Binary64 rounding *)

Section FloatFacts.

Lemma round_half_even_compat (x y : Q) :
  (x == y)%Q -> Py.round_half_even x = Py.round_half_even y.
Proof.
  intros H. unfold Py.round_half_even.
  assert (Hf : Qfloor x = Qfloor y) by by rewrite H.
  rewrite Hf.
  assert (Hc : (2 * x - inject_Z (2 * Qfloor y) ?= 1)%Q
               = (2 * y - inject_Z (2 * Qfloor y) ?= 1)%Q) by by rewrite H.
  by rewrite Hc.
Qed.

Lemma round_half_even_inject_Z (n : Z) : Py.round_half_even (inject_Z n) = n.
Proof.
  unfold Py.round_half_even. rewrite Qfloor_Z.
  assert (H : (2 * inject_Z n - inject_Z (2 * n) ?= 1)%Q = Lt).
  { apply (proj1 (Qlt_alt _ _)). rewrite inject_Z_mult. change (inject_Z 2) with 2%Q. lra. }
  by rewrite H.
Qed.

Lemma round_half_even_between (x : Q) :
  Qfloor x <= Py.round_half_even x <= Qfloor x + 1.
Proof.
  unfold Py.round_half_even.
  destruct (Qcompare _ _); [destruct (Z.even _)| |]; lia.
Qed.

Lemma round_half_even_mono (x y : Q) :
  (x <= y)%Q -> Py.round_half_even x <= Py.round_half_even y.
Proof.
  intros Hxy.
  pose proof (Qfloor_resp_le x y Hxy) as Hfloor.
  destruct (Z.eq_dec (Qfloor x) (Qfloor y)) as [Heq|Hne].
  - unfold Py.round_half_even. rewrite Heq.
    set (f := Qfloor y).
    destruct (Qcompare_spec (2 * x - inject_Z (2 * f)) 1) as [Hx|Hx|Hx];
      destruct (Qcompare_spec (2 * y - inject_Z (2 * f)) 1) as [Hy|Hy|Hy];
      try lia; try (destruct (Z.even f); lia); exfalso; lra.
  - pose proof (round_half_even_between x). pose proof (round_half_even_between y).
    lia.
Qed.

Lemma Qltb_true (x y : Q) : Py.Qltb x y = true <-> (x < y)%Q.
Proof.
  unfold Py.Qltb. rewrite negb_true_iff. split.
  - intros H. apply Qnot_le_lt. intros Hle. apply Qle_bool_iff in Hle. congruence.
  - intros H. apply not_true_is_false. intros Hle. apply Qle_bool_iff in Hle. lra.
Qed.

Lemma Qltb_false (x y : Q) : Py.Qltb x y = false <-> (y <= x)%Q.
Proof.
  unfold Py.Qltb. rewrite negb_false_iff. apply Qle_bool_iff.
Qed.

(** *** Powers of two *)

Lemma pow2_pos (e : Z) : (0 < Py.pow2 e)%Q.
Proof. apply Qpower_0_lt. reflexivity. Qed.

Lemma pow2_add (a b : Z) : (Py.pow2 (a + b) == Py.pow2 a * Py.pow2 b)%Q.
Proof. apply Qpower_plus. intros H. discriminate H. Qed.

Lemma pow2_le (a b : Z) : a <= b -> (Py.pow2 a <= Py.pow2 b)%Q.
Proof. intros H. apply Qpower_le_compat_l; [done|]. discriminate. Qed.

Lemma pow2_lt (a b : Z) : a < b -> (Py.pow2 a < Py.pow2 b)%Q.
Proof. intros H. apply Qpower_lt_compat_l; [done|]. reflexivity. Qed.

Lemma pow2_Z (a : Z) : 0 <= a -> (Py.pow2 a == inject_Z (2 ^ a))%Q.
Proof. intros H. unfold Py.pow2. by rewrite Zpower_Qpower. Qed.

Lemma pow2_succ (a : Z) : (Py.pow2 (a + 1) == 2 * Py.pow2 a)%Q.
Proof. rewrite pow2_add. change (Py.pow2 1) with 2%Q. ring. Qed.

Lemma pow2_pred (a : Z) : (2 * Py.pow2 (a - 1) == Py.pow2 a)%Q.
Proof. rewrite <- pow2_succ. by replace (a - 1 + 1) with a by lia. Qed.

Lemma pow2_inv (a : Z) : (Py.pow2 a * Py.pow2 (- a) == 1)%Q.
Proof. rewrite <- pow2_add. by replace (a + - a) with 0 by lia. Qed.

(** *** The binary logarithm *)

Lemma ilog2_spec (q : Q) :
  (0 < q)%Q -> (Py.pow2 (Py.ilog2 q) <= q < Py.pow2 (Py.ilog2 q + 1))%Q.
Proof.
  intros Hq. destruct q as [n d].
  assert (Hn : 0 < n) by (unfold Qlt in Hq; simpl in Hq; lia).
  unfold Py.ilog2. cbn [Qnum Qden].
  set (a := Z.log2 n). set (b := Z.log2 (Z.pos d)). set (k := a - b).
  destruct (Z.log2_spec n Hn) as [Ha1 Ha2]. fold a in Ha1, Ha2.
  destruct (Z.log2_spec (Z.pos d) ltac:(lia)) as [Hb1 Hb2]. fold b in Hb1, Hb2.
  assert (Ha0 : 0 <= a) by apply Z.log2_nonneg.
  assert (Hb0 : 0 <= b) by apply Z.log2_nonneg.
  pose proof (pow2_Z a Ha0) as HA. pose proof (pow2_Z b Hb0) as HB.
  pose proof (pow2_succ a) as HA'. pose proof (pow2_succ b) as HB'.
  replace (Z.succ a) with (a + 1) in Ha2 by lia.
  replace (Z.succ b) with (b + 1) in Hb2 by lia.
  rewrite Zle_Qle in Ha1, Hb1. rewrite Zlt_Qlt in Ha2, Hb2.
  rewrite <- pow2_Z in Ha1, Hb1, Ha2, Hb2 by lia.
  rewrite HA' in Ha2. rewrite HB' in Hb2.
  pose proof (pow2_add k b) as HK. replace (k + b) with a in HK by (unfold k; lia).
  pose proof (pow2_pos k) as HKpos. pose proof (pow2_pos b) as HBpos.
  set (q := n # d) in *.
  assert (Hqd : (q * inject_Z (Z.pos d) == inject_Z n)%Q).
  { unfold q. rewrite (Qmake_Qdiv n d). field. intros H0. discriminate H0. }
  assert (HD : (0 < inject_Z (Z.pos d))%Q) by reflexivity.
  set (N := inject_Z n) in *. set (D := inject_Z (Z.pos d)) in *.
  set (K := Py.pow2 k) in *. set (B := Py.pow2 b) in *. set (A := Py.pow2 a) in *.
  assert (Hlo : (K < 2 * q)%Q).
  { apply (Qmult_lt_r _ _ D HD).
    assert (K * D < K * (2 * B))%Q by (apply Qmult_lt_l; lra).
    lra. }
  assert (Hhi : (q < 2 * K)%Q).
  { apply (Qmult_lt_r _ _ D HD).
    assert (K * B <= K * D)%Q by (apply Qmult_le_l; lra).
    lra. }
  destruct (Py.Qltb q K) eqn:Hlt.
  - apply Qltb_true in Hlt. replace (k - 1 + 1) with k by lia. fold K.
    pose proof (pow2_pred k). fold K in H. split; lra.
  - apply Qltb_false in Hlt. pose proof (pow2_succ k). fold K in H |- *. split; lra.
Qed.

Lemma ilog2_mono (x y : Q) :
  (0 < x)%Q -> (x <= y)%Q -> Py.ilog2 x <= Py.ilog2 y.
Proof.
  intros Hx Hxy.
  destruct (ilog2_spec x Hx) as [Hx1 _].
  destruct (ilog2_spec y ltac:(lra)) as [_ Hy2].
  destruct (Z_le_gt_dec (Py.ilog2 x) (Py.ilog2 y)) as [|Hgt]; [done|].
  pose proof (pow2_le (Py.ilog2 y + 1) (Py.ilog2 x) ltac:(lia)). lra.
Qed.

Lemma ulp_exp_mono (x y : Q) :
  (0 < x)%Q -> (x <= y)%Q -> Py.ulp_exp x <= Py.ulp_exp y.
Proof.
  intros Hx Hxy. pose proof (ilog2_mono x y Hx Hxy). unfold Py.ulp_exp. lia.
Qed.

(** *** Rounding to binary64 *)

(** the significand of a positive number has at most 53 bits, and exactly
    53 above the subnormal range *)
Lemma significand_range (q : Q) :
  (0 < q)%Q ->
  0 <= Py.round_half_even (q / Py.pow2 (Py.ulp_exp q)) <= 2 ^ 53
  /\ (-1074 < Py.ulp_exp q ->
      2 ^ 52 <= Py.round_half_even (q / Py.pow2 (Py.ulp_exp q))).
Proof.
  intros Hq. destruct (ilog2_spec q Hq) as [Hlo Hhi].
  set (e := Py.ulp_exp q).
  pose proof (pow2_pos e) as He.
  assert (Hup : (q / Py.pow2 e <= inject_Z (2 ^ 53))%Q).
  { apply Qle_shift_div_r; [done|].
    rewrite <- (pow2_Z 53) by lia. rewrite <- pow2_add.
    pose proof (pow2_le (Py.ilog2 q + 1) (53 + e) ltac:(unfold e, Py.ulp_exp; lia)).
    lra. }
  assert (H0 : (inject_Z 0 <= q / Py.pow2 e)%Q).
  { apply Qle_shift_div_l; [done|]. change (inject_Z 0) with 0%Q. lra. }
  apply round_half_even_mono in Hup, H0.
  rewrite round_half_even_inject_Z in Hup, H0.
  split; [lia|]. intros Hnorm.
  assert (Hdn : (inject_Z (2 ^ 52) <= q / Py.pow2 e)%Q).
  { apply Qle_shift_div_l; [done|].
    rewrite <- (pow2_Z 52) by lia. rewrite <- pow2_add.
    replace (52 + e) with (Py.ilog2 q) by (unfold e, Py.ulp_exp in *; lia).
    done. }
  apply round_half_even_mono in Hdn. by rewrite round_half_even_inject_Z in Hdn.
Qed.

Lemma fl_pos_nonneg (q : Q) : (0 < q)%Q -> (0 <= Py.fl_pos q)%Q.
Proof.
  intros Hq. unfold Py.fl_pos. cbv zeta.
  destruct (significand_range q Hq) as [[Hm _] _].
  apply Qmult_le_0_compat.
  - change 0%Q with (inject_Z 0). by rewrite <- Zle_Qle.
  - apply Qlt_le_weak, pow2_pos.
Qed.

Lemma fl_pos_mono (x y : Q) :
  (0 < x)%Q -> (x <= y)%Q -> (Py.fl_pos x <= Py.fl_pos y)%Q.
Proof.
  intros Hx Hxy. assert (Hy : (0 < y)%Q) by lra.
  pose proof (ulp_exp_mono x y Hx Hxy) as He.
  unfold Py.fl_pos. cbv zeta.
  destruct (significand_range x Hx) as [[_ Hmx] _].
  destruct (significand_range y Hy) as [_ Hmy].
  set (ex := Py.ulp_exp x) in *. set (ey := Py.ulp_exp y) in *.
  set (mx := Py.round_half_even (x / Py.pow2 ex)) in *.
  set (my := Py.round_half_even (y / Py.pow2 ey)) in *.
  destruct (Z.eq_dec ex ey) as [Heq|Hne].
  - subst mx my. clearbody ex ey. subst ey.
    apply Qmult_le_compat_r; [|apply Qlt_le_weak, pow2_pos].
    rewrite <- Zle_Qle.
    apply round_half_even_mono. apply Qmult_le_compat_r; [done|].
    apply Qlt_le_weak, Qinv_lt_0_compat, pow2_pos.
  - assert (Hnorm : -1074 < ey) by (unfold ex, ey, Py.ulp_exp in *; lia).
    specialize (Hmy Hnorm).
    apply Qle_trans with (inject_Z (2 ^ 53) * Py.pow2 ex)%Q.
    { apply Qmult_le_compat_r; [by rewrite <- Zle_Qle|apply Qlt_le_weak, pow2_pos]. }
    apply Qle_trans with (inject_Z (2 ^ 52) * Py.pow2 ey)%Q.
    2:{ apply Qmult_le_compat_r; [by rewrite <- Zle_Qle|apply Qlt_le_weak, pow2_pos]. }
    rewrite <- (pow2_Z 53), <- (pow2_Z 52) by lia. rewrite <- !pow2_add.
    apply pow2_le. lia.
Qed.

Lemma fl_unfold (q : Q) :
  (Py.fl q == match Qcompare q 0 with
              | Gt => Py.fl_pos q
              | Lt => - Py.fl_pos (- q)
              | Eq => 0
              end)%Q.
Proof. apply Qred_correct. Qed.

Lemma fl_of_pos (q : Q) : (0 < q)%Q -> (Py.fl q == Py.fl_pos q)%Q.
Proof.
  intros Hq. rewrite fl_unfold. apply (proj1 (Qgt_alt _ _)) in Hq. by rewrite Hq.
Qed.

Lemma fl_of_neg (q : Q) : (q < 0)%Q -> (Py.fl q == - Py.fl_pos (- q))%Q.
Proof.
  intros Hq. rewrite fl_unfold. apply (proj1 (Qlt_alt _ _)) in Hq. by rewrite Hq.
Qed.

Lemma fl_of_zero (q : Q) : (q == 0)%Q -> (Py.fl q == 0)%Q.
Proof.
  intros Hq. rewrite fl_unfold. apply (proj1 (Qeq_alt _ _)) in Hq. by rewrite Hq.
Qed.

(** rounding is monotone *)
Lemma fl_mono (x y : Q) : (x <= y)%Q -> (Py.fl x <= Py.fl y)%Q.
Proof.
  intros Hxy.
  destruct (Q_dec x 0) as [[Hx|Hx]|Hx]; destruct (Q_dec y 0) as [[Hy|Hy]|Hy].
  - rewrite (fl_of_neg x Hx), (fl_of_neg y Hy).
    apply Qopp_le_compat, fl_pos_mono; lra.
  - rewrite (fl_of_neg x Hx), (fl_of_pos y Hy).
    pose proof (fl_pos_nonneg (- x) ltac:(lra)). pose proof (fl_pos_nonneg y Hy). lra.
  - rewrite (fl_of_neg x Hx), (fl_of_zero y Hy).
    pose proof (fl_pos_nonneg (- x) ltac:(lra)). lra.
  - lra.
  - rewrite (fl_of_pos x Hx), (fl_of_pos y Hy). by apply fl_pos_mono.
  - lra.
  - rewrite (fl_of_zero x Hx), (fl_of_neg y Hy). lra.
  - rewrite (fl_of_zero x Hx), (fl_of_pos y Hy). by apply fl_pos_nonneg.
  - rewrite (fl_of_zero x Hx), (fl_of_zero y Hy). lra.
Qed.

Lemma fl_compat (x y : Q) : (x == y)%Q -> (Py.fl x == Py.fl y)%Q.
Proof. intros H. apply Qle_antisym; apply fl_mono; lra. Qed.

(** integers of at most 53 bits are floats *)
Lemma fl_pos_inject_Z (n : Z) :
  0 < n <= 2 ^ 53 -> (Py.fl_pos (inject_Z n) == inject_Z n)%Q.
Proof.
  intros [Hn0 Hn1].
  assert (Hq : (0 < inject_Z n)%Q).
  { change 0%Q with (inject_Z 0). by rewrite <- Zlt_Qlt. }
  destruct (ilog2_spec _ Hq) as [Hlo Hhi].
  set (k := Py.ilog2 (inject_Z n)) in *.
  assert (Hk0 : 0 <= k).
  { destruct (Z_le_gt_dec 0 k) as [|Hneg]; [done|].
    pose proof (pow2_le (k + 1) 0 ltac:(lia)) as H. change (Py.pow2 0) with 1%Q in H.
    assert (1 <= inject_Z n)%Q by (change 1%Q with (inject_Z 1); rewrite <- Zle_Qle; lia).
    lra. }
  assert (Hk1 : k <= 53).
  { destruct (Z_le_gt_dec k 53) as [|Hbig]; [done|].
    pose proof (pow2_le 54 k ltac:(lia)) as H.
    pose proof (pow2_lt 53 54 ltac:(lia)) as H'. rewrite (pow2_Z 53) in H' by lia.
    assert (inject_Z n <= inject_Z (2 ^ 53))%Q by by rewrite <- Zle_Qle.
    lra. }
  unfold Py.fl_pos, Py.ulp_exp. fold k. cbv zeta.
  replace (Z.max (k - 52) (-1074)) with (k - 52) by lia.
  destruct (Z.eq_dec k 53) as [->|Hne].
  - assert (n = 2 ^ 53).
    { rewrite (pow2_Z 53) in Hlo by lia. rewrite <- Zle_Qle in Hlo. lia. }
    subst n. vm_compute. reflexivity.
  - set (j := 52 - k).
    assert (Hdiv : (inject_Z n / Py.pow2 (k - 52) == inject_Z (n * 2 ^ j))%Q).
    { rewrite inject_Z_mult, <- (pow2_Z j) by (unfold j; lia).
      pose proof (pow2_inv (k - 52)) as Hinv.
      replace (- (k - 52)) with j in Hinv by (unfold j; lia).
      pose proof (pow2_pos (k - 52)).
      apply Qmult_inj_r with (Py.pow2 (k - 52)); [lra|].
      rewrite Qmult_comm, Qmult_div_r by lra.
      rewrite <- Qmult_assoc, (Qmult_comm (Py.pow2 j)), Hinv. ring. }
    rewrite (round_half_even_compat _ _ Hdiv), round_half_even_inject_Z.
    rewrite inject_Z_mult, <- (pow2_Z j) by (unfold j; lia).
    pose proof (pow2_inv (k - 52)) as Hinv.
    replace (- (k - 52)) with j in Hinv by (unfold j; lia).
    rewrite <- Qmult_assoc, (Qmult_comm (Py.pow2 j)), Hinv. ring.
Qed.

Lemma fl_inject_Z (n : Z) :
  - 2 ^ 53 <= n <= 2 ^ 53 -> (Py.fl (inject_Z n) == inject_Z n)%Q.
Proof.
  intros Hn. destruct (Z.lt_trichotomy n 0) as [Hneg|[->|Hpos]].
  - rewrite fl_of_neg by (change 0%Q with (inject_Z 0); by rewrite <- Zlt_Qlt).
    change (- inject_Z n)%Q with (inject_Z (- n)).
    rewrite fl_pos_inject_Z by lia. rewrite inject_Z_opp. ring.
  - reflexivity.
  - rewrite fl_of_pos by (change 0%Q with (inject_Z 0); by rewrite <- Zlt_Qlt).
    apply fl_pos_inject_Z. lia.
Qed.

(** a value between two small integers rounds to a float between them *)
Lemma fl_between (a b : Z) (x : Q) :
  - 2 ^ 53 <= a -> b <= 2 ^ 53 ->
  (inject_Z a <= x <= inject_Z b)%Q -> (inject_Z a <= Py.fl x <= inject_Z b)%Q.
Proof.
  intros Ha Hb [H1 H2].
  assert (Hab : a <= b) by (rewrite Zle_Qle; lra).
  apply fl_mono in H1, H2.
  rewrite fl_inject_Z in H1, H2 by lia. done.
Qed.

(** every float is a multiple of the least subnormal *)
Lemma fl_pos_grid (q : Q) :
  (0 < q)%Q -> exists k : Z, (Py.fl_pos q == inject_Z k * Py.pow2 (-1074))%Q.
Proof.
  intros Hq. unfold Py.fl_pos. cbv zeta.
  set (e := Py.ulp_exp q). set (m := Py.round_half_even _).
  assert (He : -1074 <= e) by (unfold e, Py.ulp_exp; lia).
  exists (m * 2 ^ (e + 1074)).
  rewrite inject_Z_mult, <- (pow2_Z (e + 1074)) by lia.
  rewrite <- Qmult_assoc, <- pow2_add.
  by replace (e + 1074 + -1074) with e by lia.
Qed.

Lemma fl_grid (q : Q) : exists k : Z, (Py.fl q == inject_Z k * Py.pow2 (-1074))%Q.
Proof.
  destruct (Q_dec q 0) as [[Hq|Hq]|Hq].
  - destruct (fl_pos_grid (- q) ltac:(lra)) as [k Hk]. exists (- k).
    rewrite (fl_of_neg q Hq), Hk, inject_Z_opp. ring.
  - destruct (fl_pos_grid q Hq) as [k Hk]. exists k. by rewrite (fl_of_pos q Hq).
  - exists 0. rewrite (fl_of_zero q Hq). ring.
Qed.

Lemma fl_least_subnormal : (Py.fl (Py.pow2 (-1074)) == Py.pow2 (-1074))%Q.
Proof. vm_compute. reflexivity. Qed.

Lemma fl_least_subnormal_opp : (Py.fl (- Py.pow2 (-1074)) == - Py.pow2 (-1074))%Q.
Proof. vm_compute. reflexivity. Qed.

(** the difference of two distinct floats does not round to zero *)
Lemma fsub_nonzero (a b : Q) :
  ~ (Py.fl a == Py.fl b)%Q -> ~ (Py.fsub (Py.fl a) (Py.fl b) == 0)%Q.
Proof.
  intros Hne. unfold Py.fsub.
  destruct (fl_grid a) as [ka Ha]. destruct (fl_grid b) as [kb Hb].
  pose proof (pow2_pos (-1074)) as Heta. set (eta := Py.pow2 (-1074)) in *.
  assert (Hk : ka <> kb) by (intros ->; apply Hne; by rewrite Ha, Hb).
  assert (Hd : (Py.fl a - Py.fl b == inject_Z (ka - kb) * eta)%Q).
  { rewrite Ha, Hb. unfold Z.sub. rewrite inject_Z_plus, inject_Z_opp. ring. }
  destruct (Z.lt_trichotomy ka kb) as [Hlt|[Heq|Hgt]]; [|done|].
  - assert (Hle : (Py.fl a - Py.fl b <= - eta)%Q).
    { rewrite Hd.
      assert (inject_Z (ka - kb) <= inject_Z (-1))%Q by (rewrite <- Zle_Qle; lia).
      assert (inject_Z (ka - kb) * eta <= inject_Z (-1) * eta)%Q
        by (apply Qmult_le_compat_r; lra).
      change (inject_Z (-1)) with (-1)%Q in *. lra. }
    apply fl_mono in Hle.
    unfold eta in Hle. rewrite fl_least_subnormal_opp in Hle. fold eta in Hle. lra.
  - assert (Hge : (eta <= Py.fl a - Py.fl b)%Q).
    { rewrite Hd.
      assert (inject_Z 1 <= inject_Z (ka - kb))%Q by (rewrite <- Zle_Qle; lia).
      assert (inject_Z 1 * eta <= inject_Z (ka - kb) * eta)%Q
        by (apply Qmult_le_compat_r; lra).
      change (inject_Z 1) with 1%Q in *. lra. }
    apply fl_mono in Hge.
    unfold eta in Hge. rewrite fl_least_subnormal in Hge. fold eta in Hge. lra.
Qed.

End FloatFacts.

(** ** Ranker *)

Section ScoreRanges.

Lemma in_range_true (x : Q) : (0 <= x <= 100)%Q -> ScoreBreakdown.in_range x = true.
Proof.
  intros [H0 H100]. unfold ScoreBreakdown.in_range, Py.Qleb.
  apply andb_true_intro. split; by apply Qle_bool_iff.
Qed.

Lemma in_range_inject_Z (z : Z) : 0 <= z <= 100 -> ScoreBreakdown.in_range (inject_Z z) = true.
Proof.
  intros [H0 H100]. apply in_range_true. split.
  - change 0%Q with (inject_Z 0). by rewrite <- Zle_Qle.
  - change 100%Q with (inject_Z 100). by rewrite <- Zle_Qle.
Qed.

Lemma round_half_even_range (y : Q) :
  (0 <= y <= 10000)%Q -> 0 <= Py.round_half_even y <= 10000.
Proof.
  intros [H0 H1].
  apply round_half_even_mono in H0, H1.
  change 0%Q with (inject_Z 0) in H0. change 10000%Q with (inject_Z 10000) in H1.
  rewrite round_half_even_inject_Z in H0, H1. lia.
Qed.

Lemma round2_range (x : Q) : (0 <= x <= 100)%Q -> (0 <= Py.round2 x <= 100)%Q.
Proof.
  intros [H0 H1]. unfold Py.round2.
  destruct (round_half_even_range (x * 100)) as [Hr0 Hr1]; [split; lra|].
  apply (fl_between 0 100); [lia|lia|].
  split; unfold Qle; simpl; lia.
Qed.

(** a ratio between 0 and 1 is normalised to a score between 0 and 100 *)
Lemma normalized_range (q : Q) :
  (0 <= q <= 1)%Q ->
  (0 <= Py.round2 (Py.fmul 100 (Py.fsub 1 (Py.fl q))) <= 100)%Q.
Proof.
  intros Hq. apply round2_range.
  pose proof (fl_between 0 1 q ltac:(lia) ltac:(lia) Hq) as Hr.
  unfold Py.fsub, Py.fmul.
  pose proof (fl_between 0 1 (1 - Py.fl q) ltac:(lia) ltac:(lia)) as Hc.
  unfold inject_Z in *. specialize (Hc ltac:(lra)).
  apply (fl_between 0 100); [lia|lia|]. unfold inject_Z. lra.
Qed.

Lemma foldl_min_le (rest : list Q) :
  forall x,
    let m := foldl (fun m y => if Py.Qltb y m then y else m) x rest in
    (m <= x)%Q /\ forall y, y ∈ rest -> (m <= y)%Q.
Proof.
  induction rest as [|z rest IH]; intros x; simpl.
  - split; [apply Qle_refl|]. intros y Hy. by apply elem_of_nil in Hy.
  - destruct (IH (if Py.Qltb z x then z else x)) as [Hm Hrest].
    destruct (Py.Qltb z x) eqn:Hzx.
    + apply Qltb_true in Hzx. split; [lra|].
      intros y Hy. apply elem_of_cons in Hy as [-> | Hy]; [done|auto].
    + apply Qltb_false in Hzx. split; [done|].
      intros y Hy. apply elem_of_cons in Hy as [-> | Hy]; [lra|auto].
Qed.

Lemma foldl_max_ge (rest : list Q) :
  forall x,
    let m := foldl (fun m y => if Py.Qltb m y then y else m) x rest in
    (x <= m)%Q /\ forall y, y ∈ rest -> (y <= m)%Q.
Proof.
  induction rest as [|z rest IH]; intros x; simpl.
  - split; [apply Qle_refl|]. intros y Hy. by apply elem_of_nil in Hy.
  - destruct (IH (if Py.Qltb x z then z else x)) as [Hm Hrest].
    destruct (Py.Qltb x z) eqn:Hxz.
    + apply Qltb_true in Hxz. split; [lra|].
      intros y Hy. apply elem_of_cons in Hy as [-> | Hy]; [done|auto].
    + apply Qltb_false in Hxz. split; [done|].
      intros y Hy. apply elem_of_cons in Hy as [-> | Hy]; [lra|auto].
Qed.

Lemma foldl_min_in (rest : list Q) :
  forall x, foldl (fun m y => if Py.Qltb y m then y else m) x rest ∈ x :: rest.
Proof.
  induction rest as [|z rest IH]; intros x; simpl; [apply list_elem_of_here|].
  specialize (IH (if Py.Qltb z x then z else x)).
  apply elem_of_cons in IH as [-> | IH].
  - destruct (Py.Qltb z x).
    + apply list_elem_of_further, list_elem_of_here.
    + apply list_elem_of_here.
  - by do 2 apply list_elem_of_further.
Qed.

Lemma foldl_max_in (rest : list Q) :
  forall x, foldl (fun m y => if Py.Qltb m y then y else m) x rest ∈ x :: rest.
Proof.
  induction rest as [|z rest IH]; intros x; simpl; [apply list_elem_of_here|].
  specialize (IH (if Py.Qltb x z then z else x)).
  apply elem_of_cons in IH as [-> | IH].
  - destruct (Py.Qltb x z).
    + apply list_elem_of_further, list_elem_of_here.
    + apply list_elem_of_here.
  - by do 2 apply list_elem_of_further.
Qed.

Lemma foldl_min_int_le (rest : list Z) :
  forall x,
    let m := foldl (fun m y => if y <? m then y else m) x rest in
    m <= x /\ forall y, y ∈ rest -> m <= y.
Proof.
  induction rest as [|z rest IH]; intros x; simpl.
  - split; [lia|]. intros y Hy. by apply elem_of_nil in Hy.
  - destruct (IH (if z <? x then z else x)) as [Hm Hrest].
    destruct (Z.ltb_spec z x) as [Hzx|Hzx].
    + split; [lia|].
      intros y Hy. apply elem_of_cons in Hy as [-> | Hy]; [done|auto].
    + split; [done|].
      intros y Hy. apply elem_of_cons in Hy as [-> | Hy]; [lia|auto].
Qed.

Lemma foldl_max_int_ge (rest : list Z) :
  forall x,
    let m := foldl (fun m y => if m <? y then y else m) x rest in
    x <= m /\ forall y, y ∈ rest -> y <= m.
Proof.
  induction rest as [|z rest IH]; intros x; simpl.
  - split; [lia|]. intros y Hy. by apply elem_of_nil in Hy.
  - destruct (IH (if x <? z then z else x)) as [Hm Hrest].
    destruct (Z.ltb_spec x z) as [Hxz|Hxz].
    + split; [lia|].
      intros y Hy. apply elem_of_cons in Hy as [-> | Hy]; [done|auto].
    + split; [done|].
      intros y Hy. apply elem_of_cons in Hy as [-> | Hy]; [lia|auto].
Qed.

Lemma score_price_range (x : Itinerary.t) (all : list Itinerary.t) :
  x ∈ all ->
  exists v, Scoring._score_price x all = Some v /\ (0 <= v <= 100)%Q.
Proof.
  intros Hin. unfold Scoring._score_price. cbv zeta.
  set (f := fun itin => Py.fl (PriceBreakdown.total_usd (Itinerary.price itin))).
  change (Py.fl (PriceBreakdown.total_usd (Itinerary.price x))) with (f x).
  assert (Hv : f x ∈ map f all) by (apply list_elem_of_fmap; by exists x).
  assert (Hfl : forall p, p ∈ map f all -> exists a, p = Py.fl a).
  { intros p Hp. apply list_elem_of_fmap in Hp as (y & -> & _). by eexists. }
  destruct (map f all) as [|p0 rest]; [by apply elem_of_nil in Hv|].
  unfold Scoring.py_min, Scoring.py_max.
  destruct (foldl_min_le rest p0) as [Hminx Hmin].
  destruct (foldl_max_ge rest p0) as [Hmaxx Hmax].
  pose proof (foldl_min_in rest p0) as Hmn_in.
  pose proof (foldl_max_in rest p0) as Hmx_in. cbv zeta in *.
  set (mn := foldl (fun m y => if Py.Qltb y m then y else m) p0 rest) in *.
  set (mx := foldl (fun m y => if Py.Qltb m y then y else m) p0 rest) in *.
  assert (Hlo : (mn <= f x)%Q).
  { apply elem_of_cons in Hv as [-> | Hv]; [done|by apply Hmin]. }
  assert (Hhi : (f x <= mx)%Q).
  { apply elem_of_cons in Hv as [-> | Hv]; [done|by apply Hmax]. }
  destruct (Py.Qeqb mx mn) eqn:Heq.
  - exists 100%Q. split; [done|]. split; [done|apply Qle_refl].
  - apply Qeq_bool_neq in Heq.
    destruct (Hfl mn Hmn_in) as [a Ha]. destruct (Hfl mx Hmx_in) as [b Hb].
    assert (Hnz : ~ (Py.fsub mx mn == 0)%Q).
    { rewrite Ha, Hb. apply fsub_nonzero. by rewrite <- Ha, <- Hb. }
    unfold Py.fdiv.
    destruct (Py.Qeqb (Py.fsub mx mn) 0) eqn:Hz.
    { exfalso. by apply Hnz, Qeq_bool_iff. }
    eexists. split; [reflexivity|]. apply normalized_range.
    assert (H0 : (0 <= Py.fsub (f x) mn)%Q).
    { unfold Py.fsub. apply (fl_mono 0). lra. }
    assert (H1 : (Py.fsub (f x) mn <= Py.fsub mx mn)%Q).
    { unfold Py.fsub. apply fl_mono. lra. }
    assert (Hpos : (0 < Py.fsub mx mn)%Q).
    { destruct (Qlt_le_dec 0 (Py.fsub mx mn)) as [|Hle]; [done|].
      exfalso. apply Hnz. lra. }
    split.
    + apply Qle_shift_div_l; [done|]. lra.
    + apply Qle_shift_div_r; [done|]. lra.
Qed.

Lemma score_duration_range (x : Itinerary.t) (all : list Itinerary.t) :
  x ∈ all ->
  exists v, Scoring._score_duration x all = Some v /\ (0 <= v <= 100)%Q.
Proof.
  intros Hin. unfold Scoring._score_duration. cbv zeta.
  assert (Hv : Itinerary.total_duration_minutes x
               ∈ map Itinerary.total_duration_minutes all)
    by (apply list_elem_of_fmap; by exists x).
  set (d := Itinerary.total_duration_minutes x) in *.
  destruct (map Itinerary.total_duration_minutes all) as [|d0 rest];
    [by apply elem_of_nil in Hv|].
  unfold Scoring.py_min_int, Scoring.py_max_int.
  destruct (foldl_min_int_le rest d0) as [Hminx Hmin].
  destruct (foldl_max_int_ge rest d0) as [Hmaxx Hmax]. cbv zeta in *.
  set (mn := foldl (fun m y => if y <? m then y else m) d0 rest) in *.
  set (mx := foldl (fun m y => if m <? y then y else m) d0 rest) in *.
  assert (Hlo : mn <= d).
  { apply elem_of_cons in Hv as [-> | Hv]; [done|by apply Hmin]. }
  assert (Hhi : d <= mx).
  { apply elem_of_cons in Hv as [-> | Hv]; [done|by apply Hmax]. }
  destruct (Z.eqb_spec mx mn) as [Heq|Hne].
  - exists 100%Q. split; [done|]. split; [done|apply Qle_refl].
  - unfold Py.int_truediv.
    destruct (Z.eqb_spec (mx - mn) 0) as [|_]; [lia|].
    eexists. split; [reflexivity|]. apply normalized_range.
    assert (Hpos : (0 < inject_Z (mx - mn))%Q).
    { change 0%Q with (inject_Z 0). rewrite <- Zlt_Qlt. lia. }
    assert (H0 : (0 <= inject_Z (d - mn))%Q).
    { change 0%Q with (inject_Z 0). rewrite <- Zle_Qle. lia. }
    assert (H1 : (inject_Z (d - mn) <= inject_Z (mx - mn))%Q).
    { rewrite <- Zle_Qle. lia. }
    split.
    + apply Qle_shift_div_l; [done|]. lra.
    + apply Qle_shift_div_r; [done|]. lra.
Qed.

Lemma score_stops_range (x : Itinerary.t) : 0 <= Scoring._score_stops x <= 100.
Proof.
  unfold Scoring._score_stops.
  repeat match goal with
         | |- context [match ?v with _ => _ end] => destruct v
         end; lia.
Qed.

Lemma score_baggage_range (x : Itinerary.t) : 0 <= Scoring._score_baggage x <= 100.
Proof.
  unfold Scoring._score_baggage. rewrite baggage_fold_counts. lia.
Qed.

Lemma risk_fold_le (flags : list RiskFlag.t) :
  forall base,
    foldl (fun base risk => base - Scoring.risk_penalties risk) base flags <= base.
Proof.
  induction flags as [|f flags IH]; intros base; simpl; [lia|].
  specialize (IH (base - Scoring.risk_penalties f)).
  assert (0 <= Scoring.risk_penalties f) by (destruct f; simpl; lia). lia.
Qed.

Lemma score_risk_range (x : Itinerary.t) : 0 <= Scoring._score_risk x <= 100.
Proof.
  unfold Scoring._score_risk.
  pose proof (risk_fold_le (Itinerary.risk_flags x) 100). lia.
Qed.

Lemma layover_score_range (l : Layover.t) : (0 <= Scoring.layover_score l <= 100)%Q.
Proof.
  unfold Scoring.layover_score.
  destruct (_ && _); [|destruct (_ && _); [|destruct (_ <? _); [|destruct (_ && _)]]];
    destruct (Layover.overnight l), (Layover.airport_change l);
    split; apply Qle_bool_iff; vm_compute; reflexivity.
Qed.

Lemma py_sum_bounds (xs : list Q) :
  (forall x, x ∈ xs -> (0 <= x <= 100)%Q) ->
  forall (k : Z) (acc : Q),
    0 <= k -> 100 * (k + Z.of_nat (length xs)) <= 2 ^ 53 ->
    (0 <= acc <= inject_Z (100 * k))%Q ->
    (0 <= foldl Py.fadd acc xs <= inject_Z (100 * (k + Z.of_nat (length xs))))%Q.
Proof.
  induction xs as [|x xs IH]; intros Hall k acc Hk Hlen Hacc.
  - simpl length. change (Z.of_nat 0) with 0. by rewrite Z.add_0_r.
  - change (foldl Py.fadd acc (x :: xs)) with (foldl Py.fadd (Py.fadd acc x) xs).
    simpl length in *.
    replace (k + Z.of_nat (S (length xs))) with (k + 1 + Z.of_nat (length xs)) in * by lia.
    destruct (Hall x (list_elem_of_here _ _)) as [Hx0 Hx1].
    apply IH; [|lia|done|].
    + intros y Hy. apply Hall. by apply list_elem_of_further.
    + unfold Py.fadd. apply (fl_between 0 (100 * (k + 1))); [lia|lia|].
      replace (100 * (k + 1)) with (100 * k + 100) by lia.
      rewrite inject_Z_plus. change (inject_Z 0) with 0%Q.
      change (inject_Z 100) with 100%Q. lra.
Qed.

Lemma score_layovers_range (x : Itinerary.t) :
  Z.of_nat (length (Itinerary.layovers x)) <= 2 ^ 40 ->
  (0 <= Scoring._score_layovers x <= 100)%Q.
Proof.
  intros Hlen. unfold Scoring._score_layovers.
  destruct (Itinerary.layovers x) as [|l ls] eqn:Hl; [split; [done|apply Qle_refl]|].
  apply round2_range.
  set (scores := map Scoring.layover_score (l :: ls)).
  assert (Hall : forall v, v ∈ scores -> (0 <= v <= 100)%Q).
  { intros v Hv. apply list_elem_of_fmap in Hv as (l' & -> & _).
    apply layover_score_range. }
  assert (Hsame : length scores = length (l :: ls)) by apply length_map.
  destruct (py_sum_bounds scores Hall 0 0%Q) as [Hlo Hhi]; [lia| |done|].
  { rewrite Hsame.
    assert (2 ^ 40 * 100 <= 2 ^ 53) by (vm_compute; discriminate). lia. }
  fold (Scoring.py_sum scores) in Hlo, Hhi.
  replace (100 * (0 + Z.of_nat (length scores))) with (100 * Z.of_nat (length scores))
    in Hhi by lia.
  rewrite inject_Z_mult in Hhi. change (inject_Z 100) with 100%Q in Hhi.
  assert (Hn : (0 < inject_Z (Z.of_nat (length scores)))%Q).
  { change 0%Q with (inject_Z 0). rewrite <- Zlt_Qlt. subst scores. simpl. lia. }
  apply (fl_between 0 100); [lia|lia|].
  change (inject_Z 0) with 0%Q. change (inject_Z 100) with 100%Q. split.
  - apply Qle_shift_div_l; [done|]. lra.
  - apply Qle_shift_div_r; [done|]. lra.
Qed.

Lemma score_reliability_range (x : Itinerary.t) :
  RankSpec.fields_valid x -> (0 <= Scoring._score_reliability x <= 100)%Q.
Proof.
  intros ([Ht0 Ht1] & Hp & _). unfold Scoring._score_reliability. cbv zeta.
  apply round2_range.
  pose proof (fl_between 0 1 _ ltac:(lia) ltac:(lia) (conj Ht0 Ht1)) as Ht.
  set (t := Py.fl (ProviderMetadata.trust_score (Itinerary.provider x))) in *.
  assert (Ht25 : (0 <= Py.fmul t 25 <= 25)%Q).
  { apply (fl_between 0 25); [lia|lia|]. unfold inject_Z in *. lra. }
  assert (Hbase : (50 <= Py.fadd 50 (Py.fmul t 25) <= 75)%Q).
  { apply (fl_between 50 75); [lia|lia|]. unfold inject_Z. lra. }
  set (base := Py.fadd 50 (Py.fmul t 25)) in *.
  assert (Hcap : forall sc : Q, (0 <= sc)%Q ->
            (0 <= (if Py.Qltb 100 sc then 100 else sc) <= 100)%Q).
  { intros sc Hsc. destruct (Py.Qltb 100 sc) eqn:Hc; [split; [done|apply Qle_refl]|].
    apply Qltb_false in Hc. split; lra. }
  destruct (Signals.on_time_proxy (Itinerary.signals x)) as [p|]; [|apply Hcap; lra].
  pose proof (fl_between 0 1 _ ltac:(lia) ltac:(lia) Hp) as Hq.
  destruct (Py.Qeqb (Py.fl p) 0); [apply Hcap; lra|].
  apply Hcap.
  assert (Hp25 : (0 <= Py.fmul (Py.fl p) 25 <= 25)%Q).
  { apply (fl_between 0 25); [lia|lia|]. unfold inject_Z in *. lra. }
  assert (H50 : (50 <= Py.fadd base (Py.fmul (Py.fl p) 25) <= 100)%Q).
  { apply (fl_between 50 100); [lia|lia|]. unfold inject_Z. lra. }
  lra.
Qed.

End ScoreRanges.

Section RankFacts.
Import Heap.
Variable _generate_explanation : Itinerary.t -> list Itinerary.t -> string.
Variable search_intent : option SearchIntent.t.

Local Abbreviation w := (Scoring.weights search_intent).

Lemma same_inputs_refl (x : Itinerary.t) : RankSpec.same_inputs x x.
Proof. by repeat split. Qed.

Lemma same_inputs_prices (sa sb : store) (l : list ref) :
  (forall r, RankSpec.same_inputs (sa r) (sb r)) ->
  map (fun itin => Py.fl (PriceBreakdown.total_usd (Itinerary.price itin))) (map sa l)
  = map (fun itin => Py.fl (PriceBreakdown.total_usd (Itinerary.price itin))) (map sb l).
Proof.
  intros H. induction l as [|r l IH]; simpl; [done|].
  destruct (H r) as (-> & _). by rewrite IH.
Qed.

Lemma same_inputs_durations (sa sb : store) (l : list ref) :
  (forall r, RankSpec.same_inputs (sa r) (sb r)) ->
  map Itinerary.total_duration_minutes (map sa l)
  = map Itinerary.total_duration_minutes (map sb l).
Proof.
  intros H. induction l as [|r l IH]; simpl; [done|].
  destruct (H r) as (_ & -> & _). by rewrite IH.
Qed.

Lemma same_inputs_breakdown (sa sb : store) (l : list ref) (r : ref)
    (bd : ScoreBreakdown.t) :
  (forall r, RankSpec.same_inputs (sa r) (sb r)) ->
  RankSpec.is_breakdown_of w (sa r) (map sa l) bd ->
  RankSpec.is_breakdown_of w (sb r) (map sb l) bd.
Proof.
  intros H (Hp & Hd & Hs & Hl & Hb & Hr & Hrel & Hw).
  destruct (H r) as (Hprice & Hdur & Hstops & Hlay & Hbag & Hrisk & Hprov & Hsig).
  unfold RankSpec.is_breakdown_of, Scoring._score_price, Scoring._score_duration,
    Scoring._score_stops, Scoring._score_layovers, Scoring._score_baggage,
    Scoring._score_risk, Scoring._score_reliability in *.
  rewrite <- (same_inputs_prices sa sb l H), <- (same_inputs_durations sa sb l H).
  rewrite <- Hprice, <- Hdur, <- Hstops, <- Hlay, <- Hbag, <- Hrisk, <- Hprov, <- Hsig.
  done.
Qed.

Lemma same_inputs_valid (x y : Itinerary.t) :
  RankSpec.same_inputs x y -> RankSpec.fields_valid y -> RankSpec.fields_valid x.
Proof.
  intros (Hprice & _ & _ & Hlay & _ & _ & Hprov & Hsig). unfold RankSpec.fields_valid.
  by rewrite Hprice, Hlay, Hprov, Hsig.
Qed.

Lemma calculate_score_spec (s : store) (r : ref) (l : list ref) :
  r ∈ l -> RankSpec.fields_valid (s r) ->
  exists bd,
    RankSpec.is_breakdown_of w (s r) (map s l) bd
    /\ Scoring._calculate_score search_intent s r l
       = Some (upd s r (Itinerary.set_score (s r)
                          (Py.round2 (RankSpec.weighted_sum w bd)) bd)).
Proof.
  intros Hin Hvalid. unfold Scoring._calculate_score.
  assert (Hmem : s r ∈ map s l) by (apply list_elem_of_fmap; by exists r).
  destruct (score_price_range (s r) (map s l) Hmem) as (p & Hp & Hprange).
  destruct (score_duration_range (s r) (map s l) Hmem) as (d & Hd & Hdrange).
  cbv zeta. rewrite Hp, Hd. unfold ScoreBreakdown.create.
  rewrite (in_range_true p Hprange), (in_range_true d Hdrange).
  rewrite (in_range_inject_Z _ (score_stops_range (s r))).
  rewrite (in_range_true _ (score_layovers_range (s r) (proj2 (proj2 (proj2 Hvalid))))).
  rewrite (in_range_inject_Z _ (score_baggage_range (s r))).
  rewrite (in_range_inject_Z _ (score_risk_range (s r))).
  rewrite (in_range_true _ (score_reliability_range (s r) Hvalid)).
  cbn [andb].
  exists (ScoreBreakdown.mk p d (inject_Z (Scoring._score_stops (s r)))
            (Scoring._score_layovers (s r))
            (inject_Z (Scoring._score_baggage (s r)))
            (inject_Z (Scoring._score_risk (s r)))
            (Scoring._score_reliability (s r)) w).
  split; [by repeat split|].
  cbn [ScoreBreakdown.price_score ScoreBreakdown.duration_score
       ScoreBreakdown.stops_score ScoreBreakdown.layover_score
       ScoreBreakdown.baggage_score ScoreBreakdown.risk_score
       ScoreBreakdown.reliability_score].
  reflexivity.
Qed.

Lemma score_all_fold (s : store) (l : list ref) (rest : list ref) :
  forall s1,
    (forall r, RankSpec.same_inputs (s1 r) (s r)) ->
    (forall r, r ∈ rest -> r ∈ l /\ RankSpec.fields_valid (s r)) ->
    exists s2,
      foldl (fun acc itin =>
               match acc with
               | Some s' => Scoring._calculate_score search_intent s' itin l
               | None => None
               end)
            (Some s1) rest = Some s2
      /\ (forall r, RankSpec.same_inputs (s2 r) (s r))
      /\ (forall r, RankSpec.scored w s l s1 r -> RankSpec.scored w s l s2 r)
      /\ (forall r, r ∈ rest -> RankSpec.scored w s l s2 r).
Proof.
  induction rest as [|x rest IH]; intros s1 Hframe Hrest.
  - exists s1. split; [done|]. split; [done|]. split; [done|].
    intros r Hr. by apply elem_of_nil in Hr.
  - destruct (Hrest x (list_elem_of_here _ _)) as [Hxl Hxvalid].
    destruct (calculate_score_spec s1 x l Hxl) as (bd & Hbd & Hcalc).
    { by apply (same_inputs_valid _ (s x)). }
    apply (same_inputs_breakdown s1 s l x bd Hframe) in Hbd.
    set (s1' := upd s1 x (Itinerary.set_score (s1 x)
                            (Py.round2 (RankSpec.weighted_sum w bd)) bd)) in *.
    assert (Hframe' : forall r, RankSpec.same_inputs (s1' r) (s r)).
    { intros r. subst s1'. destruct (decide (r = x)) as [->|Hne].
      - rewrite upd_same. apply Hframe.
      - rewrite upd_other by done. apply Hframe. }
    assert (Hx : RankSpec.scored w s l s1' x).
    { exists bd. subst s1'. rewrite upd_same. done. }
    assert (Hkeep : forall r, RankSpec.scored w s l s1 r -> RankSpec.scored w s l s1' r).
    { intros r Hr. destruct (decide (r = x)) as [->|Hne]; [done|].
      destruct Hr as (bd' & ? & ? & ?). exists bd'. subst s1'.
      by rewrite upd_other. }
    destruct (IH s1' Hframe') as (s2 & Hfold & Hframe2 & Hmono & Hscored).
    { intros r Hr. apply Hrest. by apply list_elem_of_further. }
    exists s2. simpl foldl. rewrite Hcalc. split; [done|]. split; [done|].
    split.
    + intros r Hr. by apply Hmono, Hkeep.
    + intros r Hr. apply elem_of_cons in Hr as [-> | Hr]; [by apply Hmono|].
      by apply Hscored.
Qed.

Lemma explain_fold (ranked rest : list ref) :
  forall s1 r,
    let s2 :=
      foldl (fun s' itin =>
               upd s' itin
                 (Itinerary.set_explanation (s' itin)
                    (_generate_explanation (s' itin) (map s' ranked))))
            s1 rest in
    Itinerary.score (s2 r) = Itinerary.score (s1 r)
    /\ Itinerary.score_breakdown (s2 r) = Itinerary.score_breakdown (s1 r).
Proof.
  induction rest as [|x rest IH]; intros s1 r; simpl; [done|].
  destruct (IH (upd s1 x (Itinerary.set_explanation (s1 x)
                            (_generate_explanation (s1 x) (map s1 ranked)))) r)
    as [-> ->].
  destruct (decide (r = x)) as [->|Hne].
  - by rewrite upd_same.
  - by rewrite upd_other.
Qed.

Lemma rank_itineraries_scored (s : store) (l : list ref) :
  (forall r, r ∈ l -> RankSpec.fields_valid (s r)) ->
  exists s' ranked,
    Scoring.rank_itineraries _generate_explanation search_intent s l
    = Some (s', ranked)
    /\ ranked ≡ₚ l
    /\ forall r, r ∈ ranked -> RankSpec.scored w s l s' r.
Proof.
  intros Hvalid. unfold Scoring.rank_itineraries.
  destruct (score_all_fold s l l s (fun r => same_inputs_refl (s r)))
    as (s1 & Hs1 & _ & _ & Hscored).
  { intros r Hr. split; [done|by apply Hvalid]. }
  change (Scoring.score_all search_intent s l = Some s1) in Hs1.
  destruct l as [|x l'] eqn:Hl.
  - exists s, []. repeat split; [done|]. intros r Hr. by apply elem_of_nil in Hr.
  - rewrite <- Hl in *.
    eexists _, _. rewrite Hs1. split; [reflexivity|]. split; [apply sorted_perm|].
    intros r Hr. rewrite sorted_perm in Hr.
    destruct (Hscored r Hr) as (bd & Hbd & Hb & Hsc). exists bd.
    unfold Scoring.explain_all.
    match goal with
    | |- context [foldl _ s1 ?rk] =>
        destruct (explain_fold rk rk s1 r) as [Hes Heb]
    end.
    cbv zeta in Hes, Heb. rewrite Hes, Heb. done.
Qed.

End RankFacts.




